(** * Traefik certificate extractor: a model of [extractor.py]

    The program reads Traefik's ACME store (a JSON document), and for every
    certificate record writes [certificate.pem], [private_key.pem] and
    [combined.pem] into a folder named after the record's domain.

    The development follows the source top to bottom:
    - Python values as [json.load] produces them, and the dynamic operations
      the source applies to them ([in], subscripting, [.get], [.values],
      truthiness, iteration, [str.replace]);
    - [base64.b64decode] and the UTF-8 decoding of its result;
    - a tree-shaped file system with the calls the source makes on it;
    - a state-and-exception monad in which [compare_certificates] and
      [extract_certificates] are written line by line;
    - the properties of the program.

    Conventions of the model.
    - A Python [str] is represented by its UTF-8 encoding, a Rocq [string].
    - A path is the list of its components; [os.path.join p name] appends one
      component.  Names that the operating system would split or resolve
      (containing a slash, empty, dot, dot-dot) are treated as plain names.
    - Files are read and written in text mode under a UTF-8 locale; a file's
      content is the text a read returns.
    - Every file-system call is a point where the operating system may fail:
      the environment holds an oracle that may inject an [OSError] there. *)

From Stdlib Require Import ZArith List String Ascii Bool Lia PrimFloat.
Import ListNotations.

Set Warnings "-register-all".

Local Open Scope string_scope.
Local Open Scope list_scope.

(** ** Python values and exceptions *)

(** What [json.load] returns: [None], booleans, integers, floats, strings,
    lists, and dictionaries (insertion ordered, string keys). *)
Inductive value : Type :=
| VNone
| VBool (b : bool)
| VInt (z : Z)
| VFloat (f : float)
| VStr (s : string)
| VList (items : list value)
| VDict (items : list (string * value)).

(** The error numbers of the [OSError]s that matter here.
    [FileNotFoundError] is [OSError ENOENT], [FileExistsError] is
    [OSError EEXIST], [IsADirectoryError] is [OSError EISDIR],
    [NotADirectoryError] is [OSError ENOTDIR], [PermissionError] is
    [OSError EACCES]. *)
Inductive errno : Type :=
| ENOENT | EEXIST | EISDIR | ENOTDIR | EACCES | ENOSPC | EIO.

Inductive exn : Type :=
| SystemExit (code : Z)
| KeyError (key : value)
| IndexError
| TypeError
| AttributeError
| ValueError
| BinasciiError
| UnicodeDecodeError
| JSONDecodeError
| OSError (e : errno).

(** [except Exception]: everything but [SystemExit], which derives from
    [BaseException] only. *)
Definition is_Exception (e : exn) : bool :=
  match e with SystemExit _ => false | _ => true end.

(** [except IOError]: in Python 3 [IOError] is [OSError]. *)
Definition is_IOError (e : exn) : bool :=
  match e with OSError _ => true | _ => false end.

Definition is_FileNotFoundError (e : exn) : bool :=
  match e with OSError ENOENT => true | _ => false end.

Definition is_JSONDecodeError (e : exn) : bool :=
  match e with JSONDecodeError => true | _ => false end.

(** The result of evaluating an expression: a value or a raised exception. *)
Inductive result (A : Type) : Type :=
| Ok (a : A)
| Raise (e : exn).
Arguments Ok {A} a.
Arguments Raise {A} e.

Definition rbind {A B} (r : result A) (k : A -> result B) : result B :=
  match r with Ok a => k a | Raise e => Raise e end.

Notation "'let?' x ':=' e 'in' k" := (rbind e (fun x => k))
  (at level 10, x name, e at level 100, k at level 200).

(** ** Strings *)

Fixpoint is_prefix (p s : string) : bool :=
  match p, s with
  | EmptyString, _ => true
  | String a p', String b s' => Ascii.eqb a b && is_prefix p' s'
  | String _ _, EmptyString => false
  end.

(** [needle in haystack] on strings. *)
Fixpoint is_substring (needle hay : string) : bool :=
  is_prefix needle hay ||
  match hay with
  | EmptyString => false
  | String _ hay' => is_substring needle hay'
  end.

(** [s.replace(old, new)]: the occurrences of [old] are found from the left
    and do not overlap.  [skip] counts the characters of a match that are
    still to be dropped.  With an empty [old], Python puts [new] before every
    character and at the end. *)
Fixpoint replace_from (old new : string) (skip : nat) (s : string) : string :=
  match s with
  | EmptyString => EmptyString
  | String c s' =>
      match skip with
      | S k => replace_from old new k s'
      | O =>
          if is_prefix old s
          then new ++ replace_from old new (String.length old - 1) s'
          else String c (replace_from old new 0 s')
      end
  end.

Fixpoint intersperse_before (new s : string) : string :=
  match s with
  | EmptyString => new
  | String c s' => new ++ String c (intersperse_before new s')
  end.

Definition str_replace (s old new : string) : string :=
  match old with
  | EmptyString => intersperse_before new s
  | _ => replace_from old new 0 s
  end.

(** A continuation byte of UTF-8: [10xxxxxx]. *)
Definition is_cont (c : ascii) : bool :=
  let n := nat_of_ascii c in (128 <=? n)%nat && (n <? 192)%nat.

(** The characters of a [str]: each lead byte with the continuation bytes
    that follow it. *)
Definition starts_with_cont (s : string) : bool :=
  match s with String c _ => is_cont c | EmptyString => false end.

Fixpoint utf8_chars (s : string) : list string :=
  match s with
  | EmptyString => []
  | String c s' =>
      match utf8_chars s' with
      | g :: gs =>
          if starts_with_cont s' then String c g :: gs
          else String c EmptyString :: g :: gs
      | [] => [String c EmptyString]
      end
  end.

(** ** Dictionaries *)

Fixpoint assoc {A} (k : string) (d : list (string * A)) : option A :=
  match d with
  | [] => None
  | (k', v) :: d' => if String.eqb k k' then Some v else assoc k d'
  end.

Definition is_some {A} (o : option A) : bool :=
  match o with Some _ => true | None => false end.

(** ** The dynamic operations of the source *)

(** [bool(v)]. *)
Definition py_truthy (v : value) : bool :=
  match v with
  | VNone => false
  | VBool b => b
  | VInt z => negb (Z.eqb z 0)
  | VFloat f => negb (PrimFloat.eqb f PrimFloat.zero)
  | VStr s => negb (String.eqb s "")
  | VList l => match l with [] => false | _ => true end
  | VDict d => match d with [] => false | _ => true end
  end.

Definition is_str (k : string) (v : value) : bool :=
  match v with VStr s => String.eqb k s | _ => false end.

(** [k in v] for a string [k]. *)
Definition py_contains (k : string) (v : value) : result bool :=
  match v with
  | VDict d => Ok (is_some (assoc k d))
  | VList l => Ok (existsb (is_str k) l)
  | VStr s => Ok (is_substring k s)
  | _ => Raise TypeError
  end.

(** Python's index normalisation: a negative index counts from the end. *)
Definition nth_index {A} (l : list A) (i : Z) : option A :=
  let n := Z.of_nat (List.length l) in
  let j := if (i <? 0)%Z then (i + n)%Z else i in
  if (j <? 0)%Z then None else nth_error l (Z.to_nat j).

(** The integer an index stands for: a [bool] is an [int] in Python. *)
Definition as_index (k : value) : option Z :=
  match k with
  | VInt i => Some i
  | VBool b => Some (if b then 1 else 0)%Z
  | _ => None
  end.

(** [v[k]].  The keys of a dictionary out of JSON are strings, so any other
    hashable key is missing; lists and strings take integer indices. *)
Definition py_getitem (v k : value) : result value :=
  match v with
  | VDict d =>
      match k with
      | VStr s =>
          match assoc s d with Some x => Ok x | None => Raise (KeyError k) end
      | VList _ | VDict _ => Raise TypeError
      | _ => Raise (KeyError k)
      end
  | VList l =>
      match as_index k with
      | Some i =>
          match nth_index l i with Some x => Ok x | None => Raise IndexError end
      | None => Raise TypeError
      end
  | VStr s =>
      match as_index k with
      | Some i =>
          match nth_index (utf8_chars s) i with
          | Some c => Ok (VStr c)
          | None => Raise IndexError
          end
      | None => Raise TypeError
      end
  | _ => Raise TypeError
  end.

(** [v.get(k, default)]: only dictionaries have the method. *)
Definition py_get (v : value) (k : string) (default : value) : result value :=
  match v with
  | VDict d => Ok (match assoc k d with Some x => x | None => default end)
  | _ => Raise AttributeError
  end.

(** [list(v.values())]. *)
Definition py_values (v : value) : result value :=
  match v with
  | VDict d => Ok (VList (map snd d))
  | _ => Raise AttributeError
  end.

(** The elements a [for] loop over [v] visits. *)
Definition py_iter (v : value) : result (list value) :=
  match v with
  | VList l => Ok l
  | VDict d => Ok (map (fun kv => VStr (fst kv)) d)
  | VStr s => Ok (map VStr (utf8_chars s))
  | _ => Raise TypeError
  end.

(** [v.replace(old, new)]: only strings have the method. *)
Definition py_replace (v : value) (old new : string) : result string :=
  match v with
  | VStr s => Ok (str_replace s old new)
  | _ => Raise AttributeError
  end.

(** ** Domain resolution (lines 60 to 67 of [extract_certificates]) *)

Definition unknown : value := VStr "unknown".

Definition resolve_domain (cert_data : value) : result value :=
  let? has_domain := py_contains "domain" cert_data in
  if has_domain then
    let? d := py_getitem cert_data (VStr "domain") in
    let? has_main := py_contains "main" d in
    if has_main then
      let? d := py_getitem cert_data (VStr "domain") in
      py_getitem d (VStr "main")
    else
      let? d := py_getitem cert_data (VStr "domain") in
      if py_truthy d then
        let? d := py_getitem cert_data (VStr "domain") in
        let? vs := py_values d in
        py_getitem vs (VInt 0)
      else Ok unknown
  else
    let? has_domains := py_contains "domains" cert_data in
    if has_domains then
      let? ds := py_getitem cert_data (VStr "domains") in
      if py_truthy ds then
        let? ds := py_getitem cert_data (VStr "domains") in
        let? d0 := py_getitem ds (VInt 0) in
        py_getitem d0 (VStr "main")
      else Ok unknown
    else Ok unknown.

(** ** [base64.b64decode] and [bytes.decode('utf-8')] *)

Definition byte_of (c : ascii) : N := N_of_ascii c.

Definition in_range (lo hi x : N) : bool := (lo <=? x)%N && (x <=? hi)%N.

(** The value of a character of the base64 alphabet. *)
Definition b64_digit (c : ascii) : option N :=
  let x := byte_of c in
  if in_range 65 90 x then Some (x - 65)%N
  else if in_range 97 122 x then Some (x - 71)%N
  else if in_range 48 57 x then Some (x + 4)%N
  else if (x =? 43)%N then Some 62%N
  else if (x =? 47)%N then Some 63%N
  else None.

Definition out_byte (x : N) : ascii := ascii_of_N (N.land x 255).

(** [binascii.a2b_base64] in its default, non-strict mode: characters
    outside the alphabet are skipped; a pad character ends the input once
    the current quad holds at least two digits and enough pads were seen;
    an unfinished quad at the end is an error.  [acc] holds the decoded
    bytes, last first. *)
Fixpoint a2b_loop (s : string) (quad_pos leftchar pads : N) (acc : list ascii)
  : result string :=
  match s with
  | EmptyString =>
      if (quad_pos =? 0)%N then Ok (string_of_list_ascii (rev acc))
      else Raise BinasciiError
  | String c s' =>
      if Ascii.eqb c "=" then
        if (2 <=? quad_pos)%N then
          if (4 <=? quad_pos + (pads + 1))%N
          then Ok (string_of_list_ascii (rev acc))
          else a2b_loop s' quad_pos leftchar (pads + 1)%N acc
        else a2b_loop s' quad_pos leftchar pads acc
      else
        match b64_digit c with
        | None => a2b_loop s' quad_pos leftchar pads acc
        | Some this_ch =>
            if (quad_pos =? 0)%N then a2b_loop s' 1 this_ch 0 acc
            else if (quad_pos =? 1)%N then
              a2b_loop s' 2 (N.land this_ch 15) 0
                (out_byte (N.lor (N.shiftl leftchar 2) (N.shiftr this_ch 4)) :: acc)
            else if (quad_pos =? 2)%N then
              a2b_loop s' 3 (N.land this_ch 3) 0
                (out_byte (N.lor (N.shiftl leftchar 4) (N.shiftr this_ch 2)) :: acc)
            else
              a2b_loop s' 0 0 0
                (out_byte (N.lor (N.shiftl leftchar 6) this_ch) :: acc)
        end
  end.

Definition a2b_base64 (s : string) : result string := a2b_loop s 0 0 0 [].

Definition is_ascii_only (s : string) : bool :=
  forallb (fun c => (byte_of c <? 128)%N) (list_ascii_of_string s).

(** [base64.b64decode(v)] for a value out of the JSON document: a [str] must
    be ASCII ([ValueError] otherwise); anything else is not bytes-like. *)
Definition py_b64decode (v : value) : result string :=
  match v with
  | VStr s => if is_ascii_only s then a2b_base64 s else Raise ValueError
  | _ => Raise TypeError
  end.

(** Well-formed UTF-8: no overlong forms, no surrogates, nothing above
    U+10FFFF. *)
Fixpoint utf8_valid (s : string) : bool :=
  match s with
  | EmptyString => true
  | String a s1 =>
      let x := byte_of a in
      if (x <? 128)%N then utf8_valid s1
      else
        match s1 with
        | EmptyString => false
        | String b s2 =>
            let y := byte_of b in
            if in_range 194 223 x then in_range 128 191 y && utf8_valid s2
            else
              match s2 with
              | EmptyString => false
              | String c s3 =>
                  let z := byte_of c in
                  if in_range 224 239 x then
                    in_range (if (x =? 224)%N then 160 else 128)
                             (if (x =? 237)%N then 159 else 191) y
                    && in_range 128 191 z && utf8_valid s3
                  else
                    match s3 with
                    | EmptyString => false
                    | String d s4 =>
                        in_range 240 244 x
                        && in_range (if (x =? 240)%N then 144 else 128)
                                    (if (x =? 244)%N then 143 else 191) y
                        && in_range 128 191 z
                        && in_range 128 191 (byte_of d)
                        && utf8_valid s4
                    end
              end
        end
  end.

(** [b.decode('utf-8')]: the text, represented by the same bytes. *)
Definition utf8_decode (b : string) : result string :=
  if utf8_valid b then Ok b else Raise UnicodeDecodeError.

(** ** The file system *)

(** A node is a regular file (its text and its permission bits) or a
    directory (its entries by name). *)
Inductive node : Type :=
| File (data : string) (mode : Z)
| Dir (entries : list (string * node)).

Definition path := list string.

(** [os.path.join p name]. *)
Definition path_join (p : path) (name : string) : path := p ++ [name].

(** Replace the value at [k], or add the binding at the end. *)
Fixpoint aset {A} (k : string) (v : A) (d : list (string * A)) : list (string * A) :=
  match d with
  | [] => [(k, v)]
  | (k', v') :: d' =>
      if String.eqb k k' then (k, v) :: d' else (k', v') :: aset k v d'
  end.

(** Remove every binding of [k]. *)
Fixpoint adel {A} (k : string) (d : list (string * A)) : list (string * A) :=
  match d with
  | [] => []
  | (k', v') :: d' =>
      if String.eqb k k' then adel k d' else (k', v') :: adel k d'
  end.

(** Walk down [p] from [n]. *)
Fixpoint resolve (n : node) (p : path) : result node :=
  match p with
  | [] => Ok n
  | x :: p' =>
      match n with
      | File _ _ => Raise (OSError ENOTDIR)
      | Dir es =>
          match assoc x es with
          | Some c => resolve c p'
          | None => Raise (OSError ENOENT)
          end
      end
  end.

Definition lookup (n : node) (p : path) : option node :=
  match resolve n p with Ok c => Some c | Raise _ => None end.

(** Change what is at [p]: [f] receives the node there, if any, and answers
    with the node to leave there, if any.  All the directories above [p]
    must exist. *)
Fixpoint alter (f : option node -> result (option node)) (p : path)
  (o : option node) : result (option node) :=
  match p with
  | [] => f o
  | x :: p' =>
      match o with
      | None => Raise (OSError ENOENT)
      | Some (File _ _) => Raise (OSError ENOTDIR)
      | Some (Dir es) =>
          let? c := alter f p' (assoc x es) in
          Ok (Some (Dir (match c with
                         | Some c' => aset x c' es
                         | None => adel x es
                         end)))
      end
  end.

(** [alter] from the root, which cannot be removed. *)
Definition alter_root (f : option node -> result (option node)) (p : path)
  (root : node) : result node :=
  let? r := alter f p (Some root) in
  match r with Some root' => Ok root' | None => Raise (OSError EACCES) end.

Fixpoint mkchain (p : path) : node :=
  match p with
  | [] => Dir []
  | x :: p' => Dir [(x, mkchain p')]
  end.

(** [os.makedirs(p, exist_ok=True)]: the directory and the missing ones above
    it are created; an existing directory is left as it is. *)
Fixpoint fs_makedirs (p : path) (o : option node) : result node :=
  match o with
  | None => Ok (mkchain p)
  | Some (File d m) =>
      Raise (OSError (match p with [] => EEXIST | _ => ENOTDIR end))
  | Some (Dir es) =>
      match p with
      | [] => Ok (Dir es)
      | x :: p' =>
          let? c := fs_makedirs p' (assoc x es) in
          Ok (Dir (aset x c es))
      end
  end.

(** [open(p, 'w')]: an existing file is truncated and keeps its mode, a new
    one gets [mode]. *)
Definition fs_open_w (mode : Z) (p : path) : node -> result node :=
  alter_root (fun o =>
    match o with
    | None => Ok (Some (File "" mode))
    | Some (File _ m) => Ok (Some (File "" m))
    | Some (Dir _) => Raise (OSError EISDIR)
    end) p.

(** [f.write(s)] on the file opened at [p]. *)
Definition fs_write (p : path) (s : string) : node -> result node :=
  alter_root (fun o =>
    match o with
    | Some (File d m) => Ok (Some (File (d ++ s) m))
    | Some (Dir _) => Raise (OSError EISDIR)
    | None => Raise (OSError ENOENT)
    end) p.

(** [os.chmod(p, mode)]; directories carry no mode in this model. *)
Definition fs_chmod (p : path) (mode : Z) : node -> result node :=
  alter_root (fun o =>
    match o with
    | Some (File d _) => Ok (Some (File d mode))
    | Some (Dir es) => Ok (Some (Dir es))
    | None => Raise (OSError ENOENT)
    end) p.

Definition fs_remove (p : path) : node -> result node :=
  alter_root (fun o =>
    match o with
    | Some _ => Ok None
    | None => Raise (OSError ENOENT)
    end) p.

Definition fs_put (p : path) (n : node) : node -> result node :=
  alter_root (fun _ => Ok (Some n)) p.

(** [shutil.move(src, dst)]: into [dst] when [dst] is a directory (an error
    if the name is taken there), onto [dst] otherwise; a directory does not
    replace a file. *)
Definition fs_move (src dst : path) (root : node) : result node :=
  let? n := resolve root src in
  match lookup root dst with
  | Some (Dir _) =>
      let real_dst := path_join dst (last src "") in
      match lookup root real_dst with
      | Some _ => Raise (OSError EEXIST)
      | None => let? r := fs_remove src root in fs_put real_dst n r
      end
  | Some (File _ _) =>
      match n with
      | Dir _ => Raise (OSError EEXIST)
      | File _ _ => let? r := fs_remove src root in fs_put dst n r
      end
  | None => let? r := fs_remove src root in fs_put dst n r
  end.

(** [open(p, 'r')]: the text of the file at [p]. *)
Definition fs_open_r (p : path) (root : node) : result string :=
  let? n := resolve root p in
  match n with
  | File d _ => Ok d
  | Dir _ => Raise (OSError EISDIR)
  end.

(** ** The environment, the world and the monad of the program *)

(** One constructor per [print] of the source, holding what its f-string
    interpolates. *)
Inductive message : Type :=
| MsgErrorComparing (e : exn)
| MsgFileNotFound (acme_file : path)
| MsgInvalidJSON (acme_file : path)
| MsgNoCertificates
| MsgSkipping (domain : value)
| MsgArchived (file_name : string) (archived_file : path)
| MsgErrorArchiving (file_name : string) (e : exn)
| MsgErrorWritingCertificate (domain : value) (e : exn)
| MsgErrorWritingPrivateKey (domain : value) (e : exn)
| MsgErrorWritingCombined (domain : value) (e : exn)
| MsgErrorSettingPermissions (domain : value) (e : exn)
| MsgErrorProcessing (domain : value) (e : exn)
| MsgExtracted (extracted_count : nat) (output_dir : path).

(** What the platform decides: the JSON decoder, the process's umask, the
    readings of the clock (already formatted as [%Y%m%d_%H%M%S]), and the
    operating-system failure, if any, of each file-system call. *)
Record env : Type := {
  json_loads : string -> option value;
  umask : Z;
  clock : nat -> string;
  fault : nat -> option errno
}.

Record world : Type := {
  fs : node;
  stdout : list message;
  steps : nat;
  ticks : nat
}.

Definition M (A : Type) : Type := world -> result A * world.

Definition ret {A} (a : A) : M A := fun w => (Ok a, w).

Definition raise {A} (e : exn) : M A := fun w => (Raise e, w).

Definition bind {A B} (m : M A) (k : A -> M B) : M B :=
  fun w =>
    match m w with
    | (Ok a, w') => k a w'
    | (Raise e, w') => (Raise e, w')
    end.

Declare Scope prog_scope.
Delimit Scope prog_scope with prog.
Notation "x <- m ;; k" := (bind m (fun x => k))
  (at level 61, m at next level, right associativity) : prog_scope.
Notation "m ;; k" := (bind m (fun _ => k))
  (at level 61, right associativity) : prog_scope.
Local Open Scope prog_scope.

(** An expression that touches no state. *)
Definition lift {A} (r : result A) : M A := fun w => (r, w).

(** [try: m  except <catches> as e: h e]. *)
Definition try_except {A} (m : M A) (catches : exn -> bool) (h : exn -> M A) : M A :=
  fun w =>
    match m w with
    | (Raise e, w') => if catches e then h e w' else (Raise e, w')
    | r => r
    end.

Definition print (msg : message) : M unit :=
  fun w => (Ok tt, {| fs := fs w; stdout := stdout w ++ [msg];
                      steps := steps w; ticks := ticks w |}).

Definition stepped (n : node) (w : world) : world :=
  {| fs := n; stdout := stdout w; steps := S (steps w); ticks := ticks w |}.

(** A call into the operating system: it fails if the oracle says so, and
    otherwise does what [op] does to the file system. *)
Definition syscall {A} (E : env) (op : node -> result (A * node)) : M A :=
  fun w =>
    match fault E (steps w) with
    | Some err => (Raise (OSError err), stepped (fs w) w)
    | None =>
        match op (fs w) with
        | Ok (a, n) => (Ok a, stepped n w)
        | Raise e => (Raise e, stepped (fs w) w)
        end
    end.

Definition effect (op : node -> result node) (root : node) : result (unit * node) :=
  let? r := op root in Ok (tt, r).

Definition query {A} (op : node -> result A) (root : node) : result (A * node) :=
  let? a := op root in Ok (a, root).

(** The mode of a file created by [open(p, 'w')]: [0o666 & ~umask]. *)
Definition creation_mode (E : env) : Z := Z.land 438 (Z.lnot (umask E)).

Definition makedirs (E : env) (p : path) : M unit :=
  syscall E (effect (fun root => fs_makedirs p (Some root))).

Definition open_w (E : env) (p : path) : M unit :=
  syscall E (effect (fs_open_w (creation_mode E) p)).

Definition f_write (E : env) (p : path) (s : string) : M unit :=
  syscall E (effect (fs_write p s)).

Definition chmod (E : env) (p : path) (mode : Z) : M unit :=
  syscall E (effect (fs_chmod p mode)).

Definition move (E : env) (src dst : path) : M unit :=
  syscall E (effect (fs_move src dst)).

(** [with open(p, 'r') as f: f.read()]: opening and reading are two calls;
    the bytes read must decode as UTF-8. *)
Definition read_text (E : env) (p : path) : M string :=
  d <- syscall E (query (fs_open_r p)) ;;
  syscall E (query (fun _ => utf8_decode d)).

(** [os.path.exists(p)]. *)
Definition path_exists (p : path) : M bool :=
  fun w => (Ok (is_some (lookup (fs w) p)), w).

(** [datetime.now().strftime("%Y%m%d_%H%M%S")]. *)
Definition now (E : env) : M string :=
  fun w => (Ok (clock E (ticks w)),
            {| fs := fs w; stdout := stdout w; steps := steps w; ticks := S (ticks w) |}).

(** ** [compare_certificates] (lines 10 to 27) *)

(** Lines 17 to 23: the two reads and the comparison. *)
Definition read_and_compare (E : env) (cert_file key_file : path)
  (certificate key : string) : M bool :=
  existing_cert <- read_text E cert_file ;;
  existing_key <- read_text E key_file ;;
  if String.eqb existing_cert certificate && String.eqb existing_key key
  then ret true
  else ret false.

Definition compare_certificates (E : env) (cert_file key_file : path)
  (certificate key : string) : M bool :=
  cert_exists <- path_exists cert_file ;;
  key_exists <- (if cert_exists then path_exists key_file else ret false) ;;
  if cert_exists && key_exists then
    try_except
      (read_and_compare E cert_file key_file certificate key)
      is_Exception
      (fun e => print (MsgErrorComparing e) ;; ret false)
  else ret false.

(** ** [extract_certificates] (lines 29 to 149) *)

(** [try: m  except <catches> as e: print(msg e); continue].  The answer
    tells whether the loop body goes on. *)
Definition or_continue (m : M unit) (catches : exn -> bool) (msg : exn -> message) : M bool :=
  try_except (m ;; ret true) catches (fun e => print (msg e) ;; ret false).

(** Lines 99 to 108: one turn of the loop over the three file names. *)
Definition archive_file (E : env) (domain_folder archive_folder : path)
  (file_name : string) : M unit :=
  let old_file := path_join domain_folder file_name in
  old_exists <- path_exists old_file ;;
  if old_exists then
    timestamp <- now E ;;
    let archived_file := path_join archive_folder (file_name ++ "_" ++ timestamp)%string in
    try_except
      (move E old_file archived_file ;;
       print (MsgArchived file_name archived_file))
      is_Exception
      (fun e => print (MsgErrorArchiving file_name e))
  else ret tt.

(** Lines 96 to 108. *)
Definition archive_old_files (E : env) (domain_folder : path) : M unit :=
  let archive_folder := path_join domain_folder "archive" in
  makedirs E archive_folder ;;
  archive_file E domain_folder archive_folder "certificate.pem" ;;
  archive_file E domain_folder archive_folder "private_key.pem" ;;
  archive_file E domain_folder archive_folder "combined.pem".

(** Lines 110 to 143: the three files are written, the two that hold the key
    are restricted to their owner, and the record is counted. *)
Definition save_files (E : env) (domain : value)
  (cert_file key_file combined_file : path) (certificate key : string)
  (extracted_count : nat) : M nat :=
  saved <- or_continue (open_w E cert_file ;; f_write E cert_file certificate)
             is_IOError (MsgErrorWritingCertificate domain) ;;
  if negb saved then ret extracted_count else
  saved <- or_continue (open_w E key_file ;; f_write E key_file key)
             is_IOError (MsgErrorWritingPrivateKey domain) ;;
  if negb saved then ret extracted_count else
  saved <- or_continue
             (open_w E combined_file ;;
              f_write E combined_file certificate ;;
              f_write E combined_file key)
             is_IOError (MsgErrorWritingCombined domain) ;;
  if negb saved then ret extracted_count else
  secured <- or_continue (chmod E key_file 384 ;; chmod E combined_file 384)
               is_Exception (MsgErrorSettingPermissions domain) ;;
  if negb secured then ret extracted_count else
  ret (S extracted_count).

(** [base64.b64decode(v).decode('utf-8')], as on lines 75 and 76. *)
Definition decode_field (v : value) : result string :=
  let? b := py_b64decode v in utf8_decode b.

(** Lines 85 to 143: the folder of the domain exists; the record is skipped
    when its files are there already, and otherwise the old files are
    archived, if asked, and the new ones are saved. *)
Definition fill_folder (E : env) (archive_old skip_existing : bool)
  (domain : value) (domain_folder : path) (certificate key : string)
  (extracted_count : nat) : M nat :=
  let cert_file := path_join domain_folder "certificate.pem" in
  let key_file := path_join domain_folder "private_key.pem" in
  let combined_file := path_join domain_folder "combined.pem" in
  unchanged <- (if skip_existing
                then compare_certificates E cert_file key_file certificate key
                else ret false) ;;
  if unchanged then
    print (MsgSkipping domain) ;;
    ret extracted_count
  else
    (if archive_old then archive_old_files E domain_folder else ret tt) ;;
    save_files E domain cert_file key_file combined_file certificate key
      extracted_count.

(** Lines 74 to 143: the body of the [try] of a record. *)
Definition extract_record (E : env) (output_dir : path)
  (archive_old skip_existing : bool) (domain certificate_b64 key_b64 : value)
  (extracted_count : nat) : M nat :=
  certificate <- lift (decode_field certificate_b64) ;;
  key <- lift (decode_field key_b64) ;;
  sanitized_domain <- lift (py_replace domain "*" "wildcard") ;;
  let domain_folder := path_join output_dir sanitized_domain in
  makedirs E domain_folder ;;
  fill_folder E archive_old skip_existing domain domain_folder certificate key
    extracted_count.

(** Lines 59 to 146: the body of the loop over the records. *)
Definition loop_body (E : env) (output_dir : path)
  (archive_old skip_existing : bool) (cert_data : value)
  (extracted_count : nat) : M nat :=
  domain <- lift (resolve_domain cert_data) ;;
  certificate_b64 <- lift (py_get cert_data "certificate" (VStr "")) ;;
  key_b64 <- lift (py_get cert_data "key" (VStr "")) ;;
  if py_truthy certificate_b64 && py_truthy key_b64 then
    try_except
      (extract_record E output_dir archive_old skip_existing
         domain certificate_b64 key_b64 extracted_count)
      is_Exception
      (fun e => print (MsgErrorProcessing domain e) ;; ret extracted_count)
  else ret extracted_count.

(** [for cert_data in certificates_data: ...]. *)
Fixpoint for_each (body : value -> nat -> M nat) (items : list value)
  (extracted_count : nat) : M nat :=
  match items with
  | [] => ret extracted_count
  | cert_data :: rest =>
      n <- body cert_data extracted_count ;;
      for_each body rest n
  end.

(** Lines 36 to 44: the store is read and decoded, or the process exits. *)
Definition load_store (E : env) (acme_file : path) : M value :=
  try_except
    (text <- read_text E acme_file ;;
     match json_loads E text with
     | Some data => ret data
     | None => raise JSONDecodeError
     end)
    (fun e => is_FileNotFoundError e || is_JSONDecodeError e)
    (fun e =>
       if is_FileNotFoundError e
       then print (MsgFileNotFound acme_file) ;; raise (SystemExit 1)
       else print (MsgInvalidJSON acme_file) ;; raise (SystemExit 1)).

(** Lines 50 to 52: where the list of records is found. *)
Definition certificates_of (data : value) : result value :=
  let? provider := py_get data "letsencrypt" (VDict []) in
  let? certificates_data := py_get provider "Certificates" (VList []) in
  if negb (py_truthy certificates_data) then
    let? provider := py_get data "acme" (VDict []) in
    py_get provider "Certificates" (VList [])
  else Ok certificates_data.

(** Lines 47 to 149: what happens once the output directory exists. *)
Definition extract_store (E : env) (output_dir : path)
  (archive_old skip_existing : bool) (data : value) : M unit :=
  certificates_data <- lift (certificates_of data) ;;
  if negb (py_truthy certificates_data) then
    print MsgNoCertificates
  else
    items <- lift (py_iter certificates_data) ;;
    extracted_count <-
      for_each (loop_body E output_dir archive_old skip_existing) items 0 ;;
    print (MsgExtracted extracted_count output_dir).

Definition extract_certificates (E : env) (acme_file output_dir : path)
  (archive_old skip_existing : bool) : M unit :=
  data <- load_store E acme_file ;;
  makedirs E output_dir ;;
  extract_store E output_dir archive_old skip_existing data.

(** The exit status of the process.  [main] (lines 151 to 207) parses the
    command line, exits with 1 when a path is missing, and otherwise ends
    with the call of [extract_certificates]; so a normal return gives 0,
    [sys.exit(c)] gives [c], and an exception nobody caught ends the
    interpreter with 1. *)
Definition exit_status (r : result unit) : Z :=
  match r with
  | Ok _ => 0
  | Raise (SystemExit c) => c
  | Raise _ => 1
  end.

(** ** [main] (lines 151 to 207) *)

(** The namespace [parse_args] returns; a positional or an option that was
    not given is [None]. *)
Record args : Type := {
  input_file : option string;
  output_dir : option string;
  input_file_alt : option string;
  output_dir_alt : option string;
  archive : bool;
  skip_existing : bool
}.

(** The truth value of [None] or a [str]. *)
Definition given (o : option string) : bool :=
  match o with
  | Some s => negb (String.eqb s "")
  | None => false
  end.

(** [a or b]. *)
Definition py_or (a b : option string) : option string :=
  if given a then a else b.

(** How [main] ends: with the line of line 200 and [sys.exit(1)], or with
    what the call of [extract_certificates] on the two paths did. *)
Inductive main_result : Type :=
| UsageError
| Ran (acme_file output : path) (outcome : result unit * world).

(** [expanduser] stands for [os.path.expanduser] followed by the reading of
    the string as a path of this model; it depends on the home directory
    of the user. *)
Definition main (E : env) (expanduser : string -> path) (a : args)
  (w : world) : main_result :=
  let acme_file := py_or (input_file_alt a) (input_file a) in
  let output := py_or (output_dir_alt a) (output_dir a) in
  if negb (given acme_file) || negb (given output) then UsageError
  else
    match acme_file, output with
    | Some acme, Some out =>
        Ran (expanduser acme) (expanduser out)
          (extract_certificates E (expanduser acme) (expanduser out)
             (archive a) (skip_existing a) w)
    | _, _ => UsageError
    end.



(** ** Notions used to state the properties *)


Definition is_object (v : value) : bool :=
  match v with VDict _ => true | _ => false end.


(** An expression raises nothing but what [except Exception] catches. *)
Definition fails_with_exception {A} (r : result A) : Prop :=
  forall e, r = Raise e -> is_Exception e = true.

(** A computation prints nothing. *)
Definition quiet {A} (m : M A) : Prop :=
  forall w r w', m w = (r, w') -> stdout w' = stdout w.

(** A computation raises nothing but what [except IOError] catches. *)
Definition raises_ioerror_only {A} (m : M A) : Prop :=
  forall w e w', m w = (Raise e, w') -> is_IOError e = true.


(** The node under an optional node. *)
Definition olookup (o : option node) (p : path) : option node :=
  match o with Some n => lookup n p | None => None end.

Definition is_dir (root : node) (p : path) : Prop :=
  exists es, lookup root p = Some (Dir es).

(** The invariant that [q] is a directory. *)
Definition stays (q : path) (n : node) : Prop := is_dir n q.

(** The text and the mode of the file at [p], if there is one. *)
Definition content_of (root : node) (p : path) : option string :=
  match lookup root p with Some (File d _) => Some d | _ => None end.

Definition mode_of (root : node) (p : path) : option Z :=
  match lookup root p with Some (File _ m) => Some m | _ => None end.

(** Two paths part ways at some component: neither lies under the other. *)
Fixpoint diverge (p q : path) : bool :=
  match p, q with
  | x :: p', y :: q' => if String.eqb x y then diverge p' q' else true
  | _, _ => false
  end.



(** A computation keeps an invariant of the file system, however it ends. *)
Definition preserves {A} (I : node -> Prop) (m : M A) : Prop :=
  forall w r w', m w = (r, w') -> I (fs w) -> I (fs w').

(** A computation raises nothing but what [except Exception] catches. *)
Definition raises_exceptions_only {A} (m : M A) : Prop :=
  forall w e w', m w = (Raise e, w') -> is_Exception e = true.

(** A file found at [certificate.pem] in [folder] has the mode of the file
    that was there in [root0]. *)
Definition mode_inherited (folder : path) (root0 n : node) : Prop :=
  forall d m,
    lookup n (path_join folder "certificate.pem") = Some (File d m) ->
    exists d', lookup root0 (path_join folder "certificate.pem") = Some (File d' m).

(** Every star replaced by [wildcard], character by character. *)
Fixpoint subst_star (s : string) : string :=
  match s with
  | EmptyString => EmptyString
  | String c s' =>
      if Ascii.eqb c "*" then ("wildcard" ++ subst_star s')%string
      else String c (subst_star s')
  end.

Definition has_star (s : string) : bool :=
  existsb (fun c => Ascii.eqb c "*") (list_ascii_of_string s).

(** Whether a printed line names the domain [d]. *)
Definition names_domain (d : value) (msg : message) : Prop :=
  match msg with
  | MsgSkipping d' => d' = d
  | MsgErrorWritingCertificate d' _ => d' = d
  | MsgErrorWritingPrivateKey d' _ => d' = d
  | MsgErrorWritingCombined d' _ => d' = d
  | MsgErrorSettingPermissions d' _ => d' = d
  | MsgErrorProcessing d' _ => d' = d
  | _ => False
  end.




(** *** The precedence of domain names as the specification words it *)

Definition main_of (v : value) : option value :=
  match v with VDict d => assoc "main" d | _ => None end.

Definition first_entry (v : value) : option value :=
  match v with VDict ((_, x) :: _) => Some x | _ => None end.

Fixpoint first_main (l : list value) : option value :=
  match l with
  | [] => None
  | x :: l' => match main_of x with Some m => Some m | None => first_main l' end
  end.

Definition field (cert_data : value) (k : string) : option value :=
  match cert_data with VDict r => assoc k r | _ => None end.

(** First match wins: (1) [domain.main]; (2) the first entry of a non-empty
    [domain] map without [main]; (3) the [main] of an element of [domains]
    when one has it; (4) [unknown]. *)
Definition spec_domain (cert_data : value) : value :=
  match match field cert_data "domain" with Some d => main_of d | None => None end with
  | Some m => m
  | None =>
      match match field cert_data "domain" with Some d => first_entry d | None => None end with
      | Some x => x
      | None =>
          match match field cert_data "domains" with
                | Some (VList l) => first_main l
                | _ => None
                end with
          | Some m => m
          | None => unknown
          end
      end
  end.

(** *** The precedence the program implements *)

(** The [domains] list is consulted only when the record has no [domain]
    field, and only its first element is. *)
Inductive domain_rule (r : list (string * value)) : value -> Prop :=
| rule_domain_main d v :
    assoc "domain" r = Some (VDict d) -> assoc "main" d = Some v ->
    domain_rule r v
| rule_domain_first d k v :
    assoc "domain" r = Some (VDict ((k, v) :: d)) ->
    assoc "main" ((k, v) :: d) = None ->
    domain_rule r v
| rule_domain_empty :
    assoc "domain" r = Some (VDict []) ->
    domain_rule r unknown
| rule_domains_first e rest v :
    assoc "domain" r = None ->
    assoc "domains" r = Some (VList (VDict e :: rest)) ->
    assoc "main" e = Some v ->
    domain_rule r v
| rule_domains_empty :
    assoc "domain" r = None -> assoc "domains" r = Some (VList []) ->
    domain_rule r unknown
| rule_neither :
    assoc "domain" r = None -> assoc "domains" r = None ->
    domain_rule r unknown.

(** ** Sample data *)

(** A record with its domain field and its two payloads. *)
Definition sample_record (domain_field : string * value) (cert key : string) : value :=
  VDict [domain_field; ("certificate", VStr cert); ("key", VStr key)].

Definition record_a : value :=
  sample_record ("domain", VDict [("main", VStr "*.a.example")]) "Q0VSVA==" "S0VZ".

Definition record_no_main : value :=
  sample_record ("domains", VList [VDict [("sans", VList [VStr "c.example"])]])
    "Q0VSVA==" "S0VZ".

Definition record_b : value :=
  sample_record ("domain", VDict [("main", VStr "b.example")]) "Q0VSVA==" "S0VZ".

Definition record_empty_cert : value :=
  sample_record ("domain", VDict [("main", VStr "a.example")]) "" "S0VZ".

Definition record_both_fields : value :=
  VDict [("domain", VDict []);
         ("domains", VList [VDict [("main", VStr "b.example")]])].

Definition sample_store : value :=
  VDict [("letsencrypt",
          VDict [("Certificates", VList [record_a; record_no_main; record_b])])].

(** A platform without failures: umask 022, a clock stuck at one reading,
    and a JSON decoder that knows the documents of the samples. *)
Definition sample_env : env := {|
  json_loads := fun text =>
    if String.eqb text "store" then Some sample_store
    else if String.eqb text "{}" then Some (VDict [])
    else None;
  umask := 18;
  clock := fun _ => "20240101_000000";
  fault := fun _ => None
|}.

(** The same platform, but the operating system fails the call number
    [step] with [err]. *)
Definition failing_env (step : nat) (err : errno) : env := {|
  json_loads := json_loads sample_env;
  umask := umask sample_env;
  clock := clock sample_env;
  fault := fun s => if Nat.eqb s step then Some err else None
|}.

Definition world_of (root : node) : world :=
  {| fs := root; stdout := []; steps := 0; ticks := 0 |}.

Definition sample_world : world :=
  world_of (Dir [("acme.json", File "store" 384)]).

(** The output of an earlier run for [record_a]. *)
Definition extracted_world : world :=
  world_of (Dir [("out", Dir [("wildcard.a.example",
      Dir [("certificate.pem", File "CERT" 420);
           ("private_key.pem", File "KEY" 384);
           ("combined.pem", File "CERTKEY" 384)])])]).

(** * Properties *)

(** ** Strings *)

Lemma replace_star_from (s : string) :
  replace_from "*" "wildcard" 0 s = subst_star s.
Proof.
  induction s as [|c s IH]; [reflexivity|].
  cbn [replace_from subst_star is_prefix String.length Nat.sub].
  rewrite IH, (Ascii.eqb_sym "*"%char c).
  destruct (Ascii.eqb c "*"); reflexivity.
Qed.

Lemma subst_star_verbatim (s : string) :
  has_star s = false -> subst_star s = s.
Proof.
  unfold has_star.
  induction s as [|c s IH]; [reflexivity|].
  cbn [list_ascii_of_string existsb subst_star].
  intros H. apply orb_false_iff in H as [Hc Hs].
  rewrite Hc, IH by exact Hs. reflexivity.
Qed.

(** ** Dictionaries and directory entries *)

Section Entries.
Context {A : Type}.
Implicit Types (k : string) (v : A) (d : list (string * A)).

Lemma assoc_aset_eq k v d : assoc k (aset k v d) = Some v.
Proof.
  induction d as [|[k' v'] d IH]; cbn.
  - now rewrite String.eqb_refl.
  - destruct (String.eqb k k') eqn:Hk; cbn.
    + now rewrite String.eqb_refl.
    + now rewrite Hk.
Qed.

Lemma assoc_aset_neq k k' v d :
  String.eqb k' k = false -> assoc k' (aset k v d) = assoc k' d.
Proof.
  intros Hne.
  induction d as [|[k0 v0] d IH]; cbn.
  - now rewrite Hne.
  - destruct (String.eqb k k0) eqn:Hk; cbn.
    + apply String.eqb_eq in Hk. subst k0. now rewrite Hne.
    + now rewrite IH.
Qed.

Lemma assoc_adel_eq k d : assoc k (adel k d) = None.
Proof.
  induction d as [|[k' v'] d IH]; cbn; [reflexivity|].
  destruct (String.eqb k k') eqn:Hk; cbn; [exact IH|].
  now rewrite Hk.
Qed.

Lemma assoc_adel_neq k k' d :
  String.eqb k' k = false -> assoc k' (adel k d) = assoc k' d.
Proof.
  intros Hne.
  induction d as [|[k0 v0] d IH]; cbn; [reflexivity|].
  destruct (String.eqb k k0) eqn:Hk; cbn.
  - apply String.eqb_eq in Hk. subst k0. now rewrite Hne.
  - now rewrite IH.
Qed.


End Entries.

(** ** Paths and the tree *)

Lemma diverge_after_prefix (pre : path) (a b : string) (r r' : path) :
  String.eqb a b = false -> diverge (pre ++ a :: r) (pre ++ b :: r') = true.
Proof.
  intros Hab. induction pre as [|x pre IH]; cbn.
  - now rewrite Hab.
  - now rewrite String.eqb_refl.
Qed.

Lemma diverge_siblings (folder : path) (a b : string) :
  String.eqb a b = false ->
  diverge (path_join folder a) (path_join folder b) = true.
Proof. apply diverge_after_prefix. Qed.

Lemma lookup_nil n : lookup n [] = Some n.
Proof. reflexivity. Qed.

Lemma lookup_cons_dir es x p :
  lookup (Dir es) (x :: p) = olookup (assoc x es) p.
Proof. unfold lookup. cbn. now destruct (assoc x es). Qed.

Lemma lookup_cons_file d m x p : lookup (File d m) (x :: p) = None.
Proof. reflexivity. Qed.

Lemma olookup_nil o : olookup o [] = o.
Proof. now destruct o. Qed.

Lemma olookup_cons_dir es x p :
  olookup (Some (Dir es)) (x :: p) = olookup (assoc x es) p.
Proof. apply lookup_cons_dir. Qed.



Lemma lookup_resolve n p c : lookup n p = Some c <-> resolve n p = Ok c.
Proof.
  unfold lookup. destruct (resolve n p); split; congruence.
Qed.

(** *** [alter] changes the node at its path and nothing beside it *)

Lemma alter_at f p : forall o o',
  alter f p o = Ok o' -> f (olookup o p) = Ok (olookup o' p).
Proof.
  induction p as [|x p IH]; intros o o' H; cbn in H.
  - now rewrite !olookup_nil.
  - destruct o as [[d m|es]|]; try discriminate.
    destruct (alter f p (assoc x es)) as [c|e] eqn:Hc; cbn in H; [|discriminate].
    injection H as <-.
    rewrite !olookup_cons_dir, (IH _ _ Hc).
    destruct c; now rewrite ?assoc_aset_eq, ?assoc_adel_eq.
Qed.

Lemma alter_diverge f p : forall q o o',
  alter f p o = Ok o' -> diverge p q = true -> olookup o' q = olookup o q.
Proof.
  induction p as [|x p IH]; intros q o o' H Hd; [discriminate|].
  destruct q as [|y q]; [discriminate|].
  cbn in H, Hd.
  destruct o as [[d m|es]|]; try discriminate.
  destruct (alter f p (assoc x es)) as [c|e] eqn:Hc; cbn in H; [|discriminate].
  injection H as <-.
  rewrite !olookup_cons_dir.
  destruct (String.eqb x y) eqn:Hxy.
  - apply String.eqb_eq in Hxy. subst y.
    rewrite <- (IH _ _ _ Hc Hd).
    destruct c; now rewrite ?assoc_aset_eq, ?assoc_adel_eq.
  - rewrite String.eqb_sym in Hxy.
    destruct c; now rewrite ?assoc_aset_neq, ?assoc_adel_neq by exact Hxy.
Qed.

(** The directories strictly above the path stay directories. *)
Lemma alter_above f p : forall q o o' es,
  alter f p o = Ok o' -> (List.length q < List.length p)%nat ->
  olookup o q = Some (Dir es) -> exists es', olookup o' q = Some (Dir es').
Proof.
  induction p as [|x p IH]; intros q o o' es0 H Hlen Hq; cbn in Hlen; [lia|].
  cbn in H.
  destruct o as [[d m|es]|]; try discriminate.
  destruct (alter f p (assoc x es)) as [c|e] eqn:Hc; cbn in H; [|discriminate].
  injection H as <-.
  destruct q as [|y q]; [rewrite olookup_nil; eauto|].
  cbn in Hlen. rewrite olookup_cons_dir in *.
  destruct (String.eqb x y) eqn:Hxy.
  - apply String.eqb_eq in Hxy. subst y.
    destruct (IH q _ _ es0 Hc ltac:(lia) Hq) as [es' Hes'].
    exists es'. rewrite <- Hes'.
    destruct c; now rewrite ?assoc_aset_eq, ?assoc_adel_eq.
  - rewrite String.eqb_sym in Hxy. exists es0. rewrite <- Hq.
    destruct c; now rewrite ?assoc_aset_neq, ?assoc_adel_neq by exact Hxy.
Qed.

Lemma alter_root_inv f p root root' :
  alter_root f p root = Ok root' -> alter f p (Some root) = Ok (Some root').
Proof.
  unfold alter_root.
  destruct (alter f p (Some root)) as [[r|]|e]; cbn; congruence.
Qed.

Lemma alter_root_at f p root root' :
  alter_root f p root = Ok root' -> f (lookup root p) = Ok (lookup root' p).
Proof. intros H. exact (alter_at f p _ _ (alter_root_inv _ _ _ _ H)). Qed.

Lemma alter_root_diverge f p q root root' :
  alter_root f p root = Ok root' -> diverge p q = true ->
  lookup root' q = lookup root q.
Proof. intros H. exact (alter_diverge f p q _ _ (alter_root_inv _ _ _ _ H)). Qed.

Lemma alter_root_above f p q root root' :
  alter_root f p root = Ok root' -> (List.length q < List.length p)%nat ->
  is_dir root q -> is_dir root' q.
Proof.
  intros H Hlen [es Hes].
  exact (alter_above f p q _ _ es (alter_root_inv _ _ _ _ H) Hlen Hes).
Qed.

(** *** [fs_makedirs] *)

Lemma lookup_mkchain p : lookup (mkchain p) p = Some (Dir []).
Proof.
  induction p as [|x p IH]; [reflexivity|].
  cbn [mkchain]. rewrite lookup_cons_dir. cbn. now rewrite String.eqb_refl.
Qed.

Lemma lookup_mkchain_dir p : forall q c,
  lookup (mkchain p) q = Some c -> exists es, c = Dir es.
Proof.
  induction p as [|x p IH]; intros [|y q] c; cbn [mkchain].
  - intros [= <-]. eauto.
  - rewrite lookup_cons_dir. discriminate.
  - intros [= <-]. eauto.
  - rewrite lookup_cons_dir. cbn.
    destruct (String.eqb y x); [apply IH|discriminate].
Qed.


Lemma fs_makedirs_is_dir p : forall o n',
  fs_makedirs p o = Ok n' -> is_dir n' p.
Proof.
  induction p as [|x p IH]; intros o n' H.
  - destruct o as [[d m|es]|]; cbn in H; try discriminate;
      injection H as <-; eexists; reflexivity.
  - destruct o as [[d m|es]|]; cbn in H; try discriminate.
    + destruct (fs_makedirs p (assoc x es)) as [c|e] eqn:Hc; cbn in H; [|discriminate].
      injection H as <-.
      destruct (IH _ _ Hc) as [es' Hes']. exists es'.
      now rewrite lookup_cons_dir, assoc_aset_eq.
    + injection H as <-. exists []. apply (lookup_mkchain (x :: p)).
Qed.

(** Directories stay directories. *)
Lemma fs_makedirs_keeps_dirs p : forall o n' q es,
  fs_makedirs p o = Ok n' -> olookup o q = Some (Dir es) -> is_dir n' q.
Proof.
  induction p as [|x p IH]; intros o n' q es0 H Hq.
  - destruct o as [[d m|es]|]; cbn in H; try discriminate.
    injection H as <-. now exists es0.
  - destruct o as [[d m|es]|]; cbn in H; try discriminate.
    destruct (fs_makedirs p (assoc x es)) as [c|e] eqn:Hc; cbn in H; [|discriminate].
    injection H as <-.
    destruct q as [|y q]; [eexists; reflexivity|].
    rewrite olookup_cons_dir in Hq. unfold is_dir. rewrite lookup_cons_dir.
    destruct (String.eqb x y) eqn:Hxy.
    + apply String.eqb_eq in Hxy. subst y. rewrite assoc_aset_eq.
      exact (IH _ _ _ _ Hc Hq).
    + rewrite String.eqb_sym in Hxy. rewrite assoc_aset_neq by exact Hxy.
      eauto.
Qed.

(** No file is created or changed: a file found afterwards was there. *)
Lemma fs_makedirs_keeps_files p : forall o n' q d m,
  fs_makedirs p o = Ok n' -> lookup n' q = Some (File d m) ->
  olookup o q = Some (File d m).
Proof.
  induction p as [|x p IH]; intros o n' q d0 m0 H Hq.
  - destruct o as [[d m|es]|]; cbn in H; try discriminate; injection H as <-.
    + exact Hq.
    + destruct q; [discriminate|]. rewrite lookup_cons_dir in Hq. discriminate.
  - destruct o as [[d m|es]|]; cbn in H; try discriminate.
    + destruct (fs_makedirs p (assoc x es)) as [c|e] eqn:Hc; cbn in H; [|discriminate].
      injection H as <-.
      destruct q as [|y q]; [discriminate|].
      rewrite lookup_cons_dir in Hq. rewrite olookup_cons_dir.
      destruct (String.eqb x y) eqn:Hxy.
      * apply String.eqb_eq in Hxy. subst y. rewrite assoc_aset_eq in Hq.
        exact (IH _ _ _ _ _ Hc Hq).
      * rewrite String.eqb_sym in Hxy.
        now rewrite assoc_aset_neq in Hq by exact Hxy.
    + injection H as <-.
      destruct (lookup_mkchain_dir (x :: p) _ _ Hq) as [es Hes]. discriminate.
Qed.


(** ** The monad *)

Lemma bind_inv {A B} (m : M A) (k : A -> M B) w r w' :
  bind m k w = (r, w') ->
  (exists a w1, m w = (Ok a, w1) /\ k a w1 = (r, w')) \/
  (exists e, m w = (Raise e, w') /\ r = Raise e).
Proof.
  unfold bind. destruct (m w) as [[a|e] w1]; intros H.
  - left. eauto.
  - right. injection H as <- <-. eauto.
Qed.

Lemma bind_ok_inv {A B} (m : M A) (k : A -> M B) w b w' :
  bind m k w = (Ok b, w') ->
  exists a w1, m w = (Ok a, w1) /\ k a w1 = (Ok b, w').
Proof.
  intros H. destruct (bind_inv _ _ _ _ _ H) as [?|[e [_ ?]]]; [assumption|discriminate].
Qed.

Lemma bind_ok {A B} (m : M A) (k : A -> M B) w a w1 :
  m w = (Ok a, w1) -> bind m k w = k a w1.
Proof. unfold bind. now intros ->. Qed.

Lemma bind_raise {A B} (m : M A) (k : A -> M B) w e w1 :
  m w = (Raise e, w1) -> bind m k w = (Raise e, w1).
Proof. unfold bind. now intros ->. Qed.

Lemma bind_lift {A B} (r : result A) (k : A -> M B) w :
  bind (lift r) k w = match r with Ok a => k a w | Raise e => (Raise e, w) end.
Proof. now destruct r. Qed.

Lemma lift_inv {A} (r r' : result A) w w' :
  lift r w = (r', w') -> r' = r /\ w' = w.
Proof. unfold lift. now intros [= <- <-]. Qed.

Lemma try_except_inv {A} (m : M A) catches h w r w' :
  try_except m catches h w = (r, w') ->
  (exists a, m w = (Ok a, w') /\ r = Ok a) \/
  (exists e w1, m w = (Raise e, w1) /\ catches e = true /\ h e w1 = (r, w')) \/
  (exists e, m w = (Raise e, w') /\ catches e = false /\ r = Raise e).
Proof.
  unfold try_except. destruct (m w) as [[a|e] w1].
  - intros [= <- <-]. eauto.
  - destruct (catches e) eqn:Hc.
    + intros H. right. left. eauto.
    + intros [= <- <-]. right. right. eauto.
Qed.

Lemma or_continue_true m catches msg w w' :
  or_continue m catches msg w = (Ok true, w') -> m w = (Ok tt, w').
Proof.
  unfold or_continue, try_except, bind, ret, print.
  destruct (m w) as [[[]|e] w1]; cbn.
  - now intros [= <-].
  - destruct (catches e); discriminate.
Qed.

(** A system call prints nothing; it changes the file system only when it
    succeeds, and then as [op] says. *)
Lemma syscall_inv {A} E (op : node -> result (A * node)) w r w' :
  syscall E op w = (r, w') ->
  stdout w' = stdout w /\ ticks w' = ticks w /\
  ((exists a, r = Ok a /\ op (fs w) = Ok (a, fs w')) \/
   (exists e, r = Raise e /\ fs w' = fs w /\
              ((exists err, e = OSError err) \/ op (fs w) = Raise e))).
Proof.
  unfold syscall.
  destruct (fault E (steps w)) as [err|].
  - intros [= <- <-]. cbn. repeat split. right. eauto 8.
  - destruct (op (fs w)) as [[a n]|e] eqn:Hop; intros [= <- <-]; cbn;
      repeat split; [left|right]; eauto 8.
Qed.

Lemma effect_ok_inv E (op : node -> result node) w u w' :
  syscall E (effect op) w = (Ok u, w') ->
  op (fs w) = Ok (fs w') /\ stdout w' = stdout w.
Proof.
  intros H. destruct (syscall_inv _ _ _ _ _ H) as (Hout & _ & [(a & _ & Hop)|(e & ? & _)]);
    [|discriminate].
  split; [|exact Hout].
  unfold effect in Hop. destruct (op (fs w)); cbn in Hop; congruence.
Qed.

Lemma query_inv {A} E (op : node -> result A) w r w' :
  syscall E (query op) w = (r, w') ->
  fs w' = fs w /\ stdout w' = stdout w /\
  (forall a, r = Ok a -> op (fs w) = Ok a).
Proof.
  intros H. destruct (syscall_inv _ _ _ _ _ H) as (Hout & _ & [(a & -> & Hop)|(e & -> & Hfs & _)]).
  - unfold query in Hop. destruct (op (fs w)) as [a'|]; cbn in Hop; [|discriminate].
    injection Hop as <- Hfs. repeat split; auto.
  - repeat split; auto; discriminate.
Qed.

(** *** Invariants of the file system *)

Section Preserves.
Variable I : node -> Prop.

Lemma preserves_ret {A} (a : A) : preserves I (ret a).
Proof. intros w r w' [= <- <-]. auto. Qed.

Lemma preserves_raise {A} e : preserves I (@raise A e).
Proof. intros w r w' [= <- <-]. auto. Qed.

Lemma preserves_lift {A} (x : result A) : preserves I (lift x).
Proof. intros w r w' [= <- <-]. auto. Qed.

Lemma preserves_print msg : preserves I (print msg).
Proof. intros w r w' [= <- <-]. auto. Qed.

Lemma preserves_now E : preserves I (now E).
Proof. intros w r w' [= <- <-]. auto. Qed.

Lemma preserves_path_exists p : preserves I (path_exists p).
Proof. intros w r w' [= <- <-]. auto. Qed.

Lemma preserves_bind {A B} (m : M A) (k : A -> M B) :
  preserves I m -> (forall a, preserves I (k a)) -> preserves I (bind m k).
Proof.
  intros Hm Hk w r w' H HI.
  destruct (bind_inv _ _ _ _ _ H) as [(a & w1 & H1 & H2)|(e & H1 & _)].
  - exact (Hk a _ _ _ H2 (Hm _ _ _ H1 HI)).
  - exact (Hm _ _ _ H1 HI).
Qed.

Lemma preserves_try_except {A} (m : M A) catches h :
  preserves I m -> (forall e, preserves I (h e)) ->
  preserves I (try_except m catches h).
Proof.
  intros Hm Hh w r w' H HI.
  destruct (try_except_inv _ _ _ _ _ _ H)
    as [(a & H1 & _)|[(e & w1 & H1 & _ & H2)|(e & H1 & _)]].
  - exact (Hm _ _ _ H1 HI).
  - exact (Hh e _ _ _ H2 (Hm _ _ _ H1 HI)).
  - exact (Hm _ _ _ H1 HI).
Qed.

Lemma preserves_or_continue m catches msg :
  preserves I m -> preserves I (or_continue m catches msg).
Proof.
  intros Hm. apply preserves_try_except.
  - apply preserves_bind; [exact Hm|]. intros. apply preserves_ret.
  - intros. apply preserves_bind; [apply preserves_print|]. intros. apply preserves_ret.
Qed.

Lemma preserves_effect E (op : node -> result node) :
  (forall n n', op n = Ok n' -> I n -> I n') ->
  preserves I (syscall E (effect op)).
Proof.
  intros Hop w r w' H HI.
  destruct (syscall_inv _ _ _ _ _ H) as (_ & _ & [(a & _ & Ha)|(e & _ & -> & _)]);
    [|exact HI].
  unfold effect in Ha. destruct (op (fs w)) as [n|] eqn:Hn; cbn in Ha; [|discriminate].
  injection Ha as _ <-. eauto.
Qed.

Lemma preserves_query {A} E (op : node -> result A) :
  preserves I (syscall E (query op)).
Proof.
  intros w r w' H HI. destruct (query_inv _ _ _ _ _ H) as (-> & _). exact HI.
Qed.

Lemma preserves_read_text E p : preserves I (read_text E p).
Proof.
  apply preserves_bind; [apply preserves_query|]. intros. apply preserves_query.
Qed.

(** The comparison only reads. *)
Lemma preserves_compare_certificates E cert_file key_file certificate key :
  preserves I (compare_certificates E cert_file key_file certificate key).
Proof.
  unfold compare_certificates.
  apply preserves_bind; [apply preserves_path_exists|]. intros cert_exists.
  apply preserves_bind.
  { destruct cert_exists; [apply preserves_path_exists|apply preserves_ret]. }
  intros key_exists.
  destruct (cert_exists && key_exists); [|apply preserves_ret].
  apply preserves_try_except.
  - unfold read_and_compare.
    apply preserves_bind; [apply preserves_read_text|]. intros ec.
    apply preserves_bind; [apply preserves_read_text|]. intros ek.
    destruct (_ && _); apply preserves_ret.
  - intros e. apply preserves_bind; [apply preserves_print|].
    intros. apply preserves_ret.
Qed.

End Preserves.

(** ** The file-system calls of the program *)

Lemma fs_open_w_at mode p n n' :
  fs_open_w mode p n = Ok n' ->
  exists m, lookup n' p = Some (File "" m) /\
            (m = mode \/ exists d, lookup n p = Some (File d m)).
Proof.
  intros H. apply alter_root_at in H.
  destruct (lookup n p) as [[d m|es]|]; try discriminate; injection H as H; eauto.
Qed.

Lemma fs_write_at p s n n' :
  fs_write p s n = Ok n' ->
  exists d m, lookup n p = Some (File d m) /\
              lookup n' p = Some (File (d ++ s) m).
Proof.
  intros H. apply alter_root_at in H.
  destruct (lookup n p) as [[d m|es]|]; try discriminate; injection H as H; eauto.
Qed.

Lemma fs_chmod_at p mode n n' d m :
  fs_chmod p mode n = Ok n' -> lookup n p = Some (File d m) ->
  lookup n' p = Some (File d mode).
Proof.
  intros H Hp. apply alter_root_at in H. rewrite Hp in H. now injection H.
Qed.

(** [with open(p, 'w') as f: f.write(s)]. *)
Lemma write_file_ok E p s w w' :
  (open_w E p ;; f_write E p s) w = (Ok tt, w') ->
  (exists m, lookup (fs w') p = Some (File s m) /\
             (m = creation_mode E \/ exists d, lookup (fs w) p = Some (File d m))) /\
  (forall q, diverge p q = true -> lookup (fs w') q = lookup (fs w) q).
Proof.
  intros H.
  apply bind_ok_inv in H as ([] & w1 & Hopen & Hwrite).
  apply effect_ok_inv in Hopen as [Hopen _].
  apply effect_ok_inv in Hwrite as [Hwrite _].
  split.
  - destruct (fs_open_w_at _ _ _ _ Hopen) as (m & Hm & Hfrom).
    destruct (fs_write_at _ _ _ _ Hwrite) as (d & m' & Hd & Hs).
    rewrite Hm in Hd. injection Hd as <- <-. eauto.
  - intros q Hq.
    rewrite (alter_root_diverge _ _ _ _ _ Hwrite Hq).
    exact (alter_root_diverge _ _ _ _ _ Hopen Hq).
Qed.

(** [with open(p, 'w') as f: f.write(a); f.write(b)]. *)
Lemma write_both_ok E p a b w w' :
  (open_w E p ;; f_write E p a ;; f_write E p b) w = (Ok tt, w') ->
  (exists m, lookup (fs w') p = Some (File (a ++ b) m)) /\
  (forall q, diverge p q = true -> lookup (fs w') q = lookup (fs w) q).
Proof.
  intros H.
  apply bind_ok_inv in H as ([] & w1 & Hopen & H).
  apply bind_ok_inv in H as ([] & w2 & Hwa & Hwb).
  apply effect_ok_inv in Hopen as [Hopen _].
  apply effect_ok_inv in Hwa as [Hwa _].
  apply effect_ok_inv in Hwb as [Hwb _].
  split.
  - destruct (fs_open_w_at _ _ _ _ Hopen) as (m & Hm & _).
    destruct (fs_write_at _ _ _ _ Hwa) as (d & m' & Hd & Ha).
    rewrite Hm in Hd. injection Hd as <- <-.
    destruct (fs_write_at _ _ _ _ Hwb) as (d & m' & Hd & Hb).
    rewrite Ha in Hd. injection Hd as <- <-. eauto.
  - intros q Hq.
    rewrite (alter_root_diverge _ _ _ _ _ Hwb Hq).
    rewrite (alter_root_diverge _ _ _ _ _ Hwa Hq).
    exact (alter_root_diverge _ _ _ _ _ Hopen Hq).
Qed.

(** [os.chmod(k, mode); os.chmod(c, mode)] on two files that lie apart. *)
Lemma chmod_both_ok E k c mode w w' dk mk dc mc :
  (chmod E k mode ;; chmod E c mode) w = (Ok tt, w') ->
  diverge k c = true -> diverge c k = true ->
  lookup (fs w) k = Some (File dk mk) ->
  lookup (fs w) c = Some (File dc mc) ->
  lookup (fs w') k = Some (File dk mode) /\
  lookup (fs w') c = Some (File dc mode) /\
  (forall q, diverge k q = true -> diverge c q = true ->
             lookup (fs w') q = lookup (fs w) q).
Proof.
  intros H Hkc Hck Hk Hc.
  apply bind_ok_inv in H as ([] & w1 & H1 & H2).
  apply effect_ok_inv in H1 as [H1 _].
  apply effect_ok_inv in H2 as [H2 _].
  repeat split.
  - rewrite (alter_root_diverge _ _ _ _ _ H2 Hck).
    exact (fs_chmod_at _ _ _ _ _ _ H1 Hk).
  - apply (fs_chmod_at _ _ _ _ _ mc H2).
    now rewrite (alter_root_diverge _ _ _ _ _ H1 Hkc).
  - intros q Hkq Hcq.
    rewrite (alter_root_diverge _ _ _ _ _ H2 Hcq).
    exact (alter_root_diverge _ _ _ _ _ H1 Hkq).
Qed.

(** What [save_files] leaves behind when it counts the record. *)
Lemma save_files_counted E domain folder certificate key n w n' w' :
  save_files E domain (path_join folder "certificate.pem")
    (path_join folder "private_key.pem") (path_join folder "combined.pem")
    certificate key n w = (Ok n', w') ->
  n' <> n ->
  n' = S n /\
  (exists m, lookup (fs w') (path_join folder "certificate.pem")
             = Some (File certificate m) /\
             (m = creation_mode E \/
              exists d, lookup (fs w) (path_join folder "certificate.pem")
                        = Some (File d m))) /\
  lookup (fs w') (path_join folder "private_key.pem") = Some (File key 384) /\
  lookup (fs w') (path_join folder "combined.pem")
  = Some (File (certificate ++ key) 384).
Proof.
  intros H Hn. unfold save_files in H.
  apply bind_ok_inv in H as ([|] & w1 & Hcert & H); cbn [negb] in H;
    [|injection H as <-; congruence].
  apply bind_ok_inv in H as ([|] & w2 & Hkey & H); cbn [negb] in H;
    [|injection H as <-; congruence].
  apply bind_ok_inv in H as ([|] & w3 & Hcomb & H); cbn [negb] in H;
    [|injection H as <-; congruence].
  apply bind_ok_inv in H as ([|] & w4 & Hmod & H); cbn [negb] in H;
    [|injection H as <-; congruence].
  injection H as <- <-.
  apply or_continue_true, write_file_ok in Hcert as ((m & Hc1 & Hfrom) & Fc).
  apply or_continue_true, write_file_ok in Hkey as ((mk & Hk2 & _) & Fk).
  apply or_continue_true, write_both_ok in Hcomb as ((mc & Hb3) & Fb).
  apply or_continue_true in Hmod.
  assert (Dck : diverge (path_join folder "certificate.pem")
                        (path_join folder "private_key.pem") = true)
    by now apply diverge_siblings.
  assert (Dkc : diverge (path_join folder "private_key.pem")
                        (path_join folder "certificate.pem") = true)
    by now apply diverge_siblings.
  assert (Dkb : diverge (path_join folder "private_key.pem")
                        (path_join folder "combined.pem") = true)
    by now apply diverge_siblings.
  assert (Dbk : diverge (path_join folder "combined.pem")
                        (path_join folder "private_key.pem") = true)
    by now apply diverge_siblings.
  assert (Dbc : diverge (path_join folder "combined.pem")
                        (path_join folder "certificate.pem") = true)
    by now apply diverge_siblings.
  rewrite <- (Fb _ Dbk) in Hk2.
  destruct (chmod_both_ok _ _ _ _ _ _ _ _ _ _ Hmod Dkb Dbk Hk2 Hb3)
    as (Hk4 & Hb4 & F4).
  split; [reflexivity|]. split; [|split; assumption].
  exists m. split; [|exact Hfrom].
  rewrite (F4 _ Dkc Dbc), (Fb _ Dbc), (Fk _ Dkc). exact Hc1.
Qed.

(** *** Moving a file away *)

Lemma diverge_app_l p : forall q r,
  diverge p q = true -> diverge (p ++ r) q = true.
Proof.
  induction p as [|x p IH]; intros [|y q] r H; try discriminate.
  cbn in *. destruct (String.eqb x y); auto.
Qed.

Lemma fs_put_diverge p c q root root' :
  fs_put p c root = Ok root' -> diverge p q = true ->
  lookup root' q = lookup root q.
Proof. apply alter_root_diverge. Qed.

(** Whatever is found at [q] after a removal was there before. *)
Lemma fs_remove_keeps src q root r c :
  fs_remove src root = Ok r -> src = q \/ diverge src q = true ->
  lookup r q = Some c -> lookup root q = Some c.
Proof.
  intros H [<-|Hd] Hq.
  - apply alter_root_at in H. rewrite Hq in H.
    destruct (lookup root src); discriminate.
  - now rewrite <- (alter_root_diverge _ _ _ _ _ H Hd).
Qed.

(** A move whose destination lies apart from [q] brings nothing to [q]. *)
Lemma fs_move_keeps src dst q root root' c :
  fs_move src dst root = Ok root' ->
  src = q \/ diverge src q = true -> diverge dst q = true ->
  lookup root' q = Some c -> lookup root q = Some c.
Proof.
  unfold fs_move. intros H Hsrc Hdst Hq.
  destruct (resolve root src) as [n|e]; cbn in H; [|discriminate].
  assert (Hstep : forall real_dst,
             diverge real_dst q = true ->
             (let? r := fs_remove src root in fs_put real_dst n r) = Ok root' ->
             lookup root q = Some c).
  { intros real_dst Hd Hmv.
    destruct (fs_remove src root) as [r|e] eqn:Hr; cbn in Hmv; [|discriminate].
    rewrite (fs_put_diverge _ _ _ _ _ Hmv Hd) in Hq.
    exact (fs_remove_keeps _ _ _ _ _ Hr Hsrc Hq). }
  destruct (lookup root dst) as [[d m|es]|].
  - destruct n; [|discriminate]. now apply (Hstep dst).
  - destruct (lookup root (path_join dst (last src ""))); [discriminate|].
    apply (Hstep (path_join dst (last src ""))); [|exact H].
    now apply diverge_app_l.
  - now apply (Hstep dst).
Qed.

(** ** Where the mode of [certificate.pem] comes from *)

Section CertificateMode.
Variables (E : env) (folder : path) (root0 : node).

Lemma mode_inherited_makedirs p :
  preserves (mode_inherited folder root0) (makedirs E p).
Proof.
  apply preserves_effect. intros n n' H HI d m Hd.
  apply (HI d m). exact (fs_makedirs_keeps_files _ _ _ _ _ _ H Hd).
Qed.

Lemma mode_inherited_archive_file name :
  preserves (mode_inherited folder root0)
    (archive_file E folder (path_join folder "archive") name).
Proof.
  unfold archive_file.
  apply preserves_bind; [apply preserves_path_exists|]. intros [|]; [|apply preserves_ret].
  apply preserves_bind; [apply preserves_now|]. intros timestamp.
  apply preserves_try_except; [|intros; apply preserves_print].
  apply preserves_bind; [|intros; apply preserves_print].
  apply preserves_effect. intros n n' H HI d m Hd.
  apply (HI d m). revert Hd. apply (fs_move_keeps _ _ _ _ _ _ H).
  - destruct (String.eqb name "certificate.pem") eqn:Hname.
    + left. apply String.eqb_eq in Hname. now subst.
    + right. now apply diverge_siblings.
  - unfold path_join. rewrite <- !app_assoc. now apply diverge_after_prefix.
Qed.

Lemma mode_inherited_archive_old_files :
  preserves (mode_inherited folder root0) (archive_old_files E folder).
Proof.
  unfold archive_old_files.
  apply preserves_bind; [apply mode_inherited_makedirs|]. intros _.
  apply preserves_bind; [apply mode_inherited_archive_file|]. intros _.
  apply preserves_bind; [apply mode_inherited_archive_file|]. intros _.
  apply mode_inherited_archive_file.
Qed.

End CertificateMode.

(** ** A record that is counted *)

Lemma py_replace_star domain sanitized :
  py_replace domain "*" "wildcard" = Ok sanitized ->
  exists d, domain = VStr d /\ sanitized = subst_star d.
Proof.
  destruct domain; try discriminate. cbn. intros [= <-].
  eexists. split; [reflexivity|]. apply replace_star_from.
Qed.

(** What a counted record went through and what it left on disk. *)
Lemma extract_record_counted E out archive_old skip_existing
  domain certificate_b64 key_b64 n w n' w' :
  extract_record E out archive_old skip_existing domain certificate_b64 key_b64
    n w = (Ok n', w') ->
  n' <> n ->
  exists d certificate key,
    domain = VStr d /\
    decode_field certificate_b64 = Ok certificate /\
    decode_field key_b64 = Ok key /\
    n' = S n /\
    (exists m,
        lookup (fs w') (path_join (path_join out (subst_star d)) "certificate.pem")
        = Some (File certificate m) /\
        (m = creation_mode E \/
         exists d', lookup (fs w)
                      (path_join (path_join out (subst_star d)) "certificate.pem")
                    = Some (File d' m))) /\
    lookup (fs w') (path_join (path_join out (subst_star d)) "private_key.pem")
    = Some (File key 384) /\
    lookup (fs w') (path_join (path_join out (subst_star d)) "combined.pem")
    = Some (File (certificate ++ key) 384).
Proof.
  intros H Hn. unfold extract_record in H.
  apply bind_ok_inv in H as (certificate & w1 & Hc & H).
  apply lift_inv in Hc as [Hc ->].
  apply bind_ok_inv in H as (key & w1 & Hk & H).
  apply lift_inv in Hk as [Hk ->].
  apply bind_ok_inv in H as (sanitized & w1 & Hs & H).
  apply lift_inv in Hs as [Hs ->].
  symmetry in Hs. apply py_replace_star in Hs as (d & -> & ->).
  apply bind_ok_inv in H as ([] & w1 & Hmk & H).
  unfold fill_folder in H.
  apply bind_ok_inv in H as (unchanged & w2 & Hcmp & H).
  destruct unchanged.
  { apply bind_ok_inv in H as ([] & w3 & _ & H). injection H as <- _. congruence. }
  apply bind_ok_inv in H as ([] & w3 & Harch & H).
  destruct (save_files_counted _ _ _ _ _ _ _ _ _ H Hn)
    as (-> & (m & Hcert & Hfrom) & Hkey & Hcomb).
  exists d, certificate, key.
  repeat split; auto.
  exists m. split; [exact Hcert|].
  destruct Hfrom as [->|[d3 Hd3]]; [now left|right].
  set (folder := path_join out (subst_star d)) in *.
  assert (I0 : mode_inherited folder (fs w) (fs w)) by (intros d0 m0 ?; eauto).
  apply (mode_inherited_makedirs E folder (fs w) _ _ _ _ Hmk) in I0.
  assert (I2 : mode_inherited folder (fs w) (fs w2)).
  { destruct skip_existing.
    - exact (preserves_compare_certificates _ _ _ _ _ _ _ _ _ Hcmp I0).
    - injection Hcmp as <-. exact I0. }
  assert (I3 : mode_inherited folder (fs w) (fs w3)).
  { destruct archive_old.
    - exact (mode_inherited_archive_old_files E folder (fs w) _ _ _ Harch I2).
    - injection Harch as <-. exact I2. }
  exact (I3 _ _ Hd3).
Qed.

Lemma loop_body_counted E out archive_old skip_existing cert_data n w n' w' :
  loop_body E out archive_old skip_existing cert_data n w = (Ok n', w') ->
  n' <> n ->
  exists domain certificate_b64 key_b64,
    resolve_domain cert_data = Ok domain /\
    py_get cert_data "certificate" (VStr "") = Ok certificate_b64 /\
    py_get cert_data "key" (VStr "") = Ok key_b64 /\
    extract_record E out archive_old skip_existing domain certificate_b64
      key_b64 n w = (Ok n', w').
Proof.
  intros H Hn. unfold loop_body in H.
  apply bind_ok_inv in H as (domain & w1 & Hd & H).
  apply lift_inv in Hd as [Hd ->].
  apply bind_ok_inv in H as (certificate_b64 & w1 & Hc & H).
  apply lift_inv in Hc as [Hc ->].
  apply bind_ok_inv in H as (key_b64 & w1 & Hk & H).
  apply lift_inv in Hk as [Hk ->].
  exists domain, certificate_b64, key_b64. repeat split; auto.
  destruct (py_truthy certificate_b64 && py_truthy key_b64).
  - destruct (try_except_inv _ _ _ _ _ _ H)
      as [(a & H1 & [= <-])|[(e & w1 & _ & _ & H2)|(e & _ & _ & ?)]].
    + exact H1.
    + apply bind_ok_inv in H2 as ([] & w2 & _ & H2). injection H2 as <- _. congruence.
    + discriminate.
  - injection H as <- _. congruence.
Qed.

(** ** Directories above the files stay *)

Lemma fs_move_above src dst q root root' :
  fs_move src dst root = Ok root' ->
  (List.length q < List.length src)%nat -> (List.length q < List.length dst)%nat ->
  is_dir root q -> is_dir root' q.
Proof.
  unfold fs_move. intros H Hsrc Hdst Hq.
  destruct (resolve root src) as [n|e]; cbn in H; [|discriminate].
  assert (Hstep : forall real_dst,
             (List.length q < List.length real_dst)%nat ->
             (let? r := fs_remove src root in fs_put real_dst n r) = Ok root' ->
             is_dir root' q).
  { intros real_dst Hlen Hmv.
    destruct (fs_remove src root) as [r|e] eqn:Hr; cbn in Hmv; [|discriminate].
    apply (alter_root_above _ _ _ _ _ Hmv Hlen).
    exact (alter_root_above _ _ _ _ _ Hr Hsrc Hq). }
  destruct (lookup root dst) as [[d m|es]|].
  - destruct n; [|discriminate]. now apply (Hstep dst).
  - destruct (lookup root (path_join dst (last src ""))); [discriminate|].
    apply (Hstep (path_join dst (last src ""))); [|exact H].
    unfold path_join. rewrite length_app. cbn. lia.
  - now apply (Hstep dst).
Qed.

Section DirectoryStays.
Variables (E : env) (q : path).

Ltac below := unfold path_join; rewrite ?length_app; cbn [List.length]; lia.

Lemma dir_stays_alter f p :
  (List.length q < List.length p)%nat ->
  preserves (stays q) (syscall E (effect (alter_root f p))).
Proof.
  intros Hlen. apply preserves_effect. intros n n' H.
  exact (alter_root_above _ _ _ _ _ H Hlen).
Qed.

Lemma dir_stays_makedirs p : preserves (stays q) (makedirs E p).
Proof.
  apply preserves_effect. intros n n' H [es Hes].
  exact (fs_makedirs_keeps_dirs _ _ _ _ _ H Hes).
Qed.

Lemma dir_stays_archive_old_files folder :
  (List.length q <= List.length folder)%nat ->
  preserves (stays q) (archive_old_files E folder).
Proof.
  intros Hlen.
  assert (Hfile : forall name,
             preserves (stays q)
               (archive_file E folder (path_join folder "archive") name)).
  { intros name. unfold archive_file.
    apply preserves_bind; [apply preserves_path_exists|].
    intros [|]; [|apply preserves_ret].
    apply preserves_bind; [apply preserves_now|]. intros timestamp.
    apply preserves_try_except; [|intros; apply preserves_print].
    apply preserves_bind; [|intros; apply preserves_print].
    apply preserves_effect. intros n n' H.
    apply (fs_move_above _ _ _ _ _ H); below. }
  unfold archive_old_files.
  apply preserves_bind; [apply dir_stays_makedirs|]. intros _.
  apply preserves_bind; [apply Hfile|]. intros _.
  apply preserves_bind; [apply Hfile|]. intros _.
  apply Hfile.
Qed.

Lemma dir_stays_save_files domain folder certificate key n :
  (List.length q <= List.length folder)%nat ->
  preserves (stays q)
    (save_files E domain (path_join folder "certificate.pem")
       (path_join folder "private_key.pem") (path_join folder "combined.pem")
       certificate key n).
Proof.
  intros Hlen.
  assert (Hop : forall f name,
             preserves (stays q) (syscall E (effect (alter_root f (path_join folder name))))).
  { intros. apply dir_stays_alter. below. }
  unfold save_files, open_w, f_write, chmod, fs_open_w, fs_write, fs_chmod.
  repeat (first
    [ apply preserves_ret
    | apply Hop
    | apply preserves_or_continue
    | apply preserves_bind; [|intros []] ]).
Qed.

Lemma dir_stays_fill_folder archive_old skip_existing domain folder
  certificate key n :
  (List.length q <= List.length folder)%nat ->
  preserves (stays q)
    (fill_folder E archive_old skip_existing domain folder certificate key n).
Proof.
  intros Hlen. unfold fill_folder.
  apply preserves_bind.
  { destruct skip_existing;
      [apply preserves_compare_certificates|apply preserves_ret]. }
  intros [|].
  - apply preserves_bind; [apply preserves_print|]. intros. apply preserves_ret.
  - apply preserves_bind.
    + destruct archive_old; [|apply preserves_ret].
      now apply dir_stays_archive_old_files.
    + intros _. now apply dir_stays_save_files.
Qed.

Lemma dir_stays_extract_record out archive_old skip_existing domain
  certificate_b64 key_b64 n :
  (List.length q <= S (List.length out))%nat ->
  preserves (stays q)
    (extract_record E out archive_old skip_existing domain certificate_b64
       key_b64 n).
Proof.
  intros Hlen. unfold extract_record.
  apply preserves_bind; [apply preserves_lift|]. intros certificate.
  apply preserves_bind; [apply preserves_lift|]. intros key.
  apply preserves_bind; [apply preserves_lift|]. intros sanitized.
  apply preserves_bind; [apply dir_stays_makedirs|]. intros _.
  apply dir_stays_fill_folder. below.
Qed.

Lemma dir_stays_loop_body out archive_old skip_existing cert_data n :
  (List.length q <= S (List.length out))%nat ->
  preserves (stays q) (loop_body E out archive_old skip_existing cert_data n).
Proof.
  intros Hlen. unfold loop_body.
  apply preserves_bind; [apply preserves_lift|]. intros domain.
  apply preserves_bind; [apply preserves_lift|]. intros certificate_b64.
  apply preserves_bind; [apply preserves_lift|]. intros key_b64.
  destruct (_ && _); [|apply preserves_ret].
  apply preserves_try_except.
  - now apply dir_stays_extract_record.
  - intros e. apply preserves_bind; [apply preserves_print|].
    intros. apply preserves_ret.
Qed.

Lemma dir_stays_for_each out archive_old skip_existing items : forall n,
  (List.length q <= S (List.length out))%nat ->
  preserves (stays q)
    (for_each (loop_body E out archive_old skip_existing) items n).
Proof.
  induction items as [|cert_data rest IH]; intros n Hlen; cbn [for_each].
  - apply preserves_ret.
  - apply preserves_bind; [now apply dir_stays_loop_body|].
    intros n1. now apply IH.
Qed.

Lemma dir_stays_extract_store out archive_old skip_existing data :
  (List.length q <= S (List.length out))%nat ->
  preserves (stays q) (extract_store E out archive_old skip_existing data).
Proof.
  intros Hlen. unfold extract_store.
  apply preserves_bind; [apply preserves_lift|]. intros certificates_data.
  destruct (negb _); [apply preserves_print|].
  apply preserves_bind; [apply preserves_lift|]. intros items.
  apply preserves_bind; [now apply dir_stays_for_each|].
  intros. apply preserves_print.
Qed.

End DirectoryStays.

Lemma counted_record_on_disk E out archive_old skip_existing cert_data n w w' :
  loop_body E out archive_old skip_existing cert_data n w = (Ok (S n), w') ->
  exists d certificate key m,
    resolve_domain cert_data = Ok (VStr d) /\
    (let? v := py_get cert_data "certificate" (VStr "") in decode_field v)
    = Ok certificate /\
    (let? v := py_get cert_data "key" (VStr "") in decode_field v) = Ok key /\
    lookup (fs w') (path_join (path_join out (subst_star d)) "certificate.pem")
    = Some (File certificate m) /\
    (m = creation_mode E \/
     exists d', lookup (fs w)
                  (path_join (path_join out (subst_star d)) "certificate.pem")
                = Some (File d' m)) /\
    lookup (fs w') (path_join (path_join out (subst_star d)) "private_key.pem")
    = Some (File key 384) /\
    lookup (fs w') (path_join (path_join out (subst_star d)) "combined.pem")
    = Some (File (certificate ++ key) 384).
Proof.
  intros H.
  destruct (loop_body_counted _ _ _ _ _ _ _ _ _ H (Nat.neq_succ_diag_l n))
    as (domain & cb & kb & Hd & Hcb & Hkb & Hrec).
  destruct (extract_record_counted _ _ _ _ _ _ _ _ _ _ _ Hrec (Nat.neq_succ_diag_l n))
    as (d & certificate & key & -> & Hc & Hk & _ & (m & Hcert & Hfrom) & Hkey & Hcomb).
  exists d, certificate, key, m.
  rewrite Hcb, Hkb. cbn [rbind]. repeat split; assumption.
Qed.

(** ** The claims about the files of a record *)

(** C4: for every record that is counted as extracted, [combined.pem] holds
    the text of [certificate.pem] followed by the text of
    [private_key.pem], which are the decoded [certificate] and [key] fields
    of the record, with nothing between or after. *)
Theorem combined_is_certificate_then_key
  E out archive_old skip_existing cert_data n w w' :
  loop_body E out archive_old skip_existing cert_data n w = (Ok (S n), w') ->
  exists d certificate key,
    resolve_domain cert_data = Ok (VStr d) /\
    (let? v := py_get cert_data "certificate" (VStr "") in decode_field v)
    = Ok certificate /\
    (let? v := py_get cert_data "key" (VStr "") in decode_field v) = Ok key /\
    let folder := path_join out (subst_star d) in
    content_of (fs w') (path_join folder "certificate.pem") = Some certificate /\
    content_of (fs w') (path_join folder "private_key.pem") = Some key /\
    content_of (fs w') (path_join folder "combined.pem")
    = Some (certificate ++ key)%string.
Proof.
  intros H.
  destruct (counted_record_on_disk _ _ _ _ _ _ _ _ H)
    as (d & certificate & key & m & Hd & Hc & Hk & Hcert & _ & Hkey & Hcomb).
  exists d, certificate, key. unfold content_of.
  rewrite Hcert, Hkey, Hcomb. repeat split; assumption.
Qed.

Lemma combined_is_certificate_then_key_witness :
  let w' := snd (loop_body sample_env ["out"] true true record_a 0
                   (world_of (Dir []))) in
  exists d certificate key,
    resolve_domain record_a = Ok (VStr d) /\
    (let? v := py_get record_a "certificate" (VStr "") in decode_field v)
    = Ok certificate /\
    (let? v := py_get record_a "key" (VStr "") in decode_field v) = Ok key /\
    let folder := path_join ["out"] (subst_star d) in
    content_of (fs w') (path_join folder "certificate.pem") = Some certificate /\
    content_of (fs w') (path_join folder "private_key.pem") = Some key /\
    content_of (fs w') (path_join folder "combined.pem")
    = Some (certificate ++ key)%string.
Proof.
  apply (combined_is_certificate_then_key sample_env ["out"] true true
           record_a 0 (world_of (Dir []))).
  vm_compute. reflexivity.
Defined.

(** C9: for every record that is counted as extracted, [private_key.pem]
    and [combined.pem] end with mode 0o600 (384), which grants nothing to
    group and others and no execution (no bit of 0o177); the mode of
    [certificate.pem] is the creation mode of the process, or the mode the
    file had before the record was processed. *)
Theorem key_files_are_owner_only
  E out archive_old skip_existing cert_data n w w' :
  loop_body E out archive_old skip_existing cert_data n w = (Ok (S n), w') ->
  exists d,
    resolve_domain cert_data = Ok (VStr d) /\
    let folder := path_join out (subst_star d) in
    mode_of (fs w') (path_join folder "private_key.pem") = Some 384%Z /\
    mode_of (fs w') (path_join folder "combined.pem") = Some 384%Z /\
    Z.land 384 127 = 0%Z /\
    exists m,
      mode_of (fs w') (path_join folder "certificate.pem") = Some m /\
      (m = creation_mode E \/
       mode_of (fs w) (path_join folder "certificate.pem") = Some m).
Proof.
  intros H.
  destruct (counted_record_on_disk _ _ _ _ _ _ _ _ H)
    as (d & certificate & key & m & Hd & _ & _ & Hcert & Hfrom & Hkey & Hcomb).
  exists d. split; [exact Hd|]. cbv zeta. unfold mode_of.
  rewrite Hcert, Hkey, Hcomb. repeat split.
  exists m. split; [reflexivity|].
  destruct Hfrom as [->|[d' ->]]; auto.
Qed.

Lemma key_files_are_owner_only_witness :
  let w' := snd (loop_body sample_env ["out"] false false record_a 0
                   (world_of (Dir []))) in
  exists d,
    resolve_domain record_a = Ok (VStr d) /\
    let folder := path_join ["out"] (subst_star d) in
    mode_of (fs w') (path_join folder "private_key.pem") = Some 384%Z /\
    mode_of (fs w') (path_join folder "combined.pem") = Some 384%Z /\
    Z.land 384 127 = 0%Z /\
    exists m,
      mode_of (fs w') (path_join folder "certificate.pem") = Some m /\
      (m = creation_mode sample_env \/
       mode_of (Dir []) (path_join folder "certificate.pem") = Some m).
Proof.
  apply (key_files_are_owner_only sample_env ["out"] false false record_a 0
           (world_of (Dir []))).
  vm_compute. reflexivity.
Defined.

(** ** The folder of a record *)

(** A record whose domain resolved and whose fields are not empty runs the
    body of the [try]. *)
Lemma loop_body_tries E out archive_old skip_existing cert_data n w
  domain certificate_b64 key_b64 :
  resolve_domain cert_data = Ok domain ->
  py_get cert_data "certificate" (VStr "") = Ok certificate_b64 ->
  py_get cert_data "key" (VStr "") = Ok key_b64 ->
  py_truthy certificate_b64 && py_truthy key_b64 = true ->
  loop_body E out archive_old skip_existing cert_data n w
  = try_except
      (extract_record E out archive_old skip_existing domain certificate_b64
         key_b64 n)
      is_Exception
      (fun e => print (MsgErrorProcessing domain e) ;; ret n) w.
Proof.
  intros Hd Hc Hk Ht. unfold loop_body, bind at 1 2 3, lift.
  now rewrite Hd, Hc, Hk, Ht.
Qed.

(** A record whose fields decode reaches line 83 with the sanitised name. *)
Lemma extract_record_reaches_folder E out archive_old skip_existing n w
  d certificate_b64 key_b64 certificate key :
  decode_field certificate_b64 = Ok certificate ->
  decode_field key_b64 = Ok key ->
  extract_record E out archive_old skip_existing (VStr d) certificate_b64
    key_b64 n w
  = (makedirs E (path_join out (subst_star d)) ;;
     fill_folder E archive_old skip_existing (VStr d)
       (path_join out (subst_star d)) certificate key n) w.
Proof.
  intros Hc Hk. unfold extract_record, bind at 1 2 3, lift.
  rewrite Hc, Hk. cbn [py_replace str_replace]. now rewrite replace_star_from.
Qed.

(** C7: a record whose domain resolved to the string [d] and whose fields
    decode gets the folder [subst_star d] of the output directory, that is
    [d] with every star replaced by [wildcard]: once line 83 has created it,
    it is there when the record is done, however the record ends.  A domain
    without a star is its own folder name. *)
Theorem folder_is_sanitized_domain
  E out archive_old skip_existing cert_data n w r w'
  d certificate_b64 key_b64 certificate key w1 :
  resolve_domain cert_data = Ok (VStr d) ->
  py_get cert_data "certificate" (VStr "") = Ok certificate_b64 ->
  py_get cert_data "key" (VStr "") = Ok key_b64 ->
  py_truthy certificate_b64 && py_truthy key_b64 = true ->
  decode_field certificate_b64 = Ok certificate ->
  decode_field key_b64 = Ok key ->
  makedirs E (path_join out (subst_star d)) w = (Ok tt, w1) ->
  loop_body E out archive_old skip_existing cert_data n w = (r, w') ->
  py_replace (VStr d) "*" "wildcard" = Ok (subst_star d) /\
  is_dir (fs w') (path_join out (subst_star d)) /\
  (has_star d = false -> is_dir (fs w') (path_join out d)).
Proof.
  intros Hd Hcb Hkb Ht Hc Hk Hmk H.
  assert (Hdir : is_dir (fs w') (path_join out (subst_star d))).
  { rewrite (loop_body_tries _ _ _ _ _ _ _ _ _ _ Hd Hcb Hkb Ht) in H.
    assert (Hfolder : is_dir (fs w1) (path_join out (subst_star d))).
    { apply effect_ok_inv in Hmk as [Hmk _].
      exact (fs_makedirs_is_dir _ _ _ Hmk). }
    revert Hfolder.
    assert (Htail : preserves (stays (path_join out (subst_star d)))
                      (fill_folder E archive_old skip_existing (VStr d)
                         (path_join out (subst_star d)) certificate key n))
      by (apply dir_stays_fill_folder; lia).
    destruct (try_except_inv _ _ _ _ _ _ H)
      as [(a & H1 & _)|[(e & w2 & H1 & _ & H2)|(e & H1 & _)]];
      rewrite (extract_record_reaches_folder _ _ _ _ _ _ _ _ _ _ _ Hc Hk) in H1;
      rewrite (bind_ok _ _ _ _ _ Hmk) in H1; intros Hfolder.
    - exact (Htail _ _ _ H1 Hfolder).
    - cbv [bind print ret] in H2. injection H2 as _ <-.
      exact (Htail _ _ _ H1 Hfolder).
    - exact (Htail _ _ _ H1 Hfolder). }
  split; [cbn; now rewrite replace_star_from|].
  split; [exact Hdir|].
  intros Hstar. now rewrite <- (subst_star_verbatim d Hstar).
Qed.

Lemma folder_is_sanitized_domain_witness :
  let w' := snd (loop_body sample_env ["out"] false false record_a 0
                   (world_of (Dir []))) in
  py_replace (VStr "*.a.example") "*" "wildcard"
  = Ok (subst_star "*.a.example") /\
  is_dir (fs w') (path_join ["out"] (subst_star "*.a.example")) /\
  (has_star "*.a.example" = false ->
   is_dir (fs w') (path_join ["out"] "*.a.example")).
Proof.
  apply (folder_is_sanitized_domain sample_env ["out"] false false record_a 0
           (world_of (Dir []))
           (fst (loop_body sample_env ["out"] false false record_a 0
                   (world_of (Dir []))))
           _ "*.a.example" (VStr "Q0VSVA==") (VStr "S0VZ") "CERT" "KEY"
           (snd (makedirs sample_env ["out"; "wildcard.a.example"]
                   (world_of (Dir []))))); reflexivity.
Defined.

(** ** Domain resolution *)

Lemma resolve_domain_dict r :
  resolve_domain (VDict r)
  = match assoc "domain" r with
    | Some dom =>
        let? has_main := py_contains "main" dom in
        if has_main then py_getitem dom (VStr "main")
        else if py_truthy dom
             then let? vs := py_values dom in py_getitem vs (VInt 0)
             else Ok unknown
    | None =>
        match assoc "domains" r with
        | Some ds =>
            if py_truthy ds
            then let? d0 := py_getitem ds (VInt 0) in py_getitem d0 (VStr "main")
            else Ok unknown
        | None => Ok unknown
        end
    end.
Proof.
  unfold resolve_domain. cbn [py_contains py_getitem rbind].
  destruct (assoc "domain" r) as [dom|]; cbn [is_some rbind].
  - destruct (py_contains "main" dom) as [[|]|e]; reflexivity.
  - destruct (assoc "domains" r) as [ds|]; cbn [is_some rbind]; [|reflexivity].
    destruct (py_truthy ds); reflexivity.
Qed.

(** C3, as the program has it: the name of a record is the [main] of its
    [domain] field; else the first value of a non-empty [domain] map; else
    [unknown] when [domain] is an empty map; and only when the record has no
    [domain] field, the [main] of the first element of [domains], or
    [unknown] when [domains] is empty or missing too. *)
Theorem resolve_domain_follows_rule r v :
  domain_rule r v -> resolve_domain (VDict r) = Ok v.
Proof.
  intros Hrule. rewrite resolve_domain_dict.
  destruct Hrule as [d v Hdom Hmain|d k v Hdom Hmain|Hdom
                    |e rest v Hdom Hds Hmain|Hdom Hds|Hdom Hds];
    rewrite Hdom; try rewrite Hds; cbn [py_contains rbind py_truthy].
  - rewrite Hmain. cbn. now rewrite Hmain.
  - rewrite Hmain. reflexivity.
  - reflexivity.
  - cbn. now rewrite Hmain.
  - reflexivity.
  - reflexivity.
Qed.

Lemma resolve_domain_follows_rule_witness :
  resolve_domain
    (VDict [("domains", VList [VDict [("main", VStr "b.example")];
                               VDict [("main", VStr "c.example")]]);
            ("certificate", VStr "Q0VSVA==")])
  = Ok (VStr "b.example").
Proof.
  apply resolve_domain_follows_rule.
  apply (rule_domains_first _ [("main", VStr "b.example")]
           [VDict [("main", VStr "c.example")]]); reflexivity.
Defined.

(** The precedence as the specification words it fails on a record that has
    an empty [domain] map beside a [domains] list: the list is not looked
    at. *)
Lemma resolve_domain_skips_domains :
  resolve_domain record_both_fields <> Ok (spec_domain record_both_fields).
Proof. vm_compute. discriminate. Qed.

(** A [domains] list whose first element has no [main] is not resolved to
    [unknown], nor to the [main] of a later element: the lookup raises. *)
Lemma resolve_domain_first_without_main rest :
  resolve_domain
    (VDict [("domains", VList (VDict [("sans", VList [])] :: rest))])
  = Raise (KeyError (VStr "main")).
Proof. reflexivity. Qed.

(** ** Where the certificate list is found *)

Lemma certificates_of_dict store :
  certificates_of (VDict store)
  = let? first :=
      py_get (match assoc "letsencrypt" store with
              | Some provider => provider
              | None => VDict []
              end) "Certificates" (VList []) in
    if py_truthy first then Ok first
    else py_get (match assoc "acme" store with
                 | Some provider => provider
                 | None => VDict []
                 end) "Certificates" (VList []).
Proof.
  unfold certificates_of. cbn [py_get rbind].
  destruct (py_get _ "Certificates" (VList [])) as [first|e]; cbn [rbind]; [|reflexivity].
  destruct (py_truthy first); reflexivity.
Qed.




Lemma extract_store_cases E out archive_old skip_existing data w :
  extract_store E out archive_old skip_existing data w
  = match certificates_of data with
    | Ok certificates_data =>
        if py_truthy certificates_data then
          (items <- lift (py_iter certificates_data) ;;
           extracted_count <-
             for_each (loop_body E out archive_old skip_existing) items 0 ;;
           print (MsgExtracted extracted_count out)) w
        else print MsgNoCertificates w
    | Raise e => (Raise e, w)
    end.
Proof.
  unfold extract_store. rewrite bind_lift.
  destruct (certificates_of data) as [c|e]; [destruct (py_truthy c)|];
    reflexivity.
Qed.





(** ** Loading the store *)

Lemma resolve_raises n : forall p e,
  resolve n p = Raise e -> is_IOError e = true.
Proof.
  intros p. revert n.
  induction p as [|x p IH]; intros n e H; cbn in H; [discriminate|].
  destruct n as [d m|es]; [now injection H as <-|].
  destruct (assoc x es); [eauto|now injection H as <-].
Qed.

Lemma read_text_raises E p w e w' :
  read_text E p w = (Raise e, w') ->
  is_IOError e = true \/ e = UnicodeDecodeError.
Proof.
  intros H. unfold read_text in H.
  destruct (bind_inv _ _ _ _ _ H) as [(d & w1 & _ & H2)|(e' & H1 & [= <-])].
  - destruct (syscall_inv _ _ _ _ _ H2) as (_ & _ & [(a & ? & _)|(e' & [= <-] & _ & Hwhy)]);
      [discriminate|].
    destruct Hwhy as [[err ->]|Hop]; [now left|right].
    unfold query, utf8_decode in Hop. destruct (utf8_valid d); cbn in Hop; congruence.
  - destruct (syscall_inv _ _ _ _ _ H1) as (_ & _ & [(a & ? & _)|(e' & [= <-] & _ & Hwhy)]);
      [discriminate|].
    left. destruct Hwhy as [[err ->]|Hop]; [reflexivity|].
    unfold query, fs_open_r in Hop.
    destruct (resolve (fs w) p) as [[d m|es]|e0] eqn:Hr; cbn in Hop;
      try discriminate; injection Hop as <-; [reflexivity|].
    exact (resolve_raises _ _ _ Hr).
Qed.

Lemma read_text_ok E p w text w' :
  read_text E p w = (Ok text, w') ->
  exists m, lookup (fs w) p = Some (File text m).
Proof.
  intros H. unfold read_text in H.
  apply bind_ok_inv in H as (d & w1 & H1 & H2).
  destruct (query_inv _ _ _ _ _ H1) as (_ & _ & Hopen).
  destruct (query_inv _ _ _ _ _ H2) as (_ & _ & Hdec).
  specialize (Hopen _ eq_refl). specialize (Hdec _ eq_refl).
  unfold utf8_decode in Hdec. destruct (utf8_valid d); [|discriminate].
  injection Hdec as <-.
  unfold fs_open_r in Hopen. unfold lookup.
  destruct (resolve (fs w) p) as [[d' m|es]|]; cbn in Hopen; try discriminate.
  injection Hopen as ->. eauto.
Qed.

(** Loading only reads; when it fails the process is on its way out with
    status 1, through [sys.exit(1)] or through an exception nobody
    catches. *)
Lemma load_store_inv E acme_file w r w1 :
  load_store E acme_file w = (r, w1) ->
  fs w1 = fs w /\
  (forall e, r = Raise e -> exit_status (Raise e) = 1%Z) /\
  (forall data, r = Ok data ->
     exists text m, lookup (fs w) acme_file = Some (File text m) /\
                    json_loads E text = Some data).
Proof.
  intros H. unfold load_store in H.
  destruct (try_except_inv _ _ _ _ _ _ H)
    as [(data & H1 & ->)|[(e & w2 & H1 & Hc & H2)|(e & H1 & Hc & ->)]];
    destruct (bind_inv _ _ _ _ _ H1) as [(text & w3 & Hr & Hj)|(e' & Hr & He)].
  - pose proof (preserves_read_text (fun n => n = fs w) _ _ _ _ _ Hr eq_refl) as Hfs.
    destruct (read_text_ok _ _ _ _ _ Hr) as [m Hm].
    destruct (json_loads E text) as [v|] eqn:Hv; [|discriminate].
    injection Hj as <- <-.
    split; [exact Hfs|]. split; [discriminate|].
    intros ? [= <-]. eauto.
  - discriminate.
  - pose proof (preserves_read_text (fun n => n = fs w) _ _ _ _ _ Hr eq_refl) as Hfs.
    destruct (json_loads E text); [discriminate|]. injection Hj as <- <-.
    cbv [is_FileNotFoundError is_JSONDecodeError orb bind print raise] in H2.
    injection H2 as <- <-. cbn.
    split; [exact Hfs|]. split; [now intros ? [= <-]|discriminate].
  - pose proof (preserves_read_text (fun n => n = fs w) _ _ _ _ _ Hr eq_refl) as Hfs.
    assert (He' : r = Raise (SystemExit 1) /\ fs w1 = fs w2).
    { destruct (is_FileNotFoundError e); cbv [bind print raise] in H2;
        injection H2 as <- <-; auto. }
    destruct He' as [-> ->].
    split; [exact Hfs|]. split; [now intros ? [= <-]|discriminate].
  - pose proof (preserves_read_text (fun n => n = fs w) _ _ _ _ _ Hr eq_refl) as Hfs.
    destruct (json_loads E text); [discriminate|]. injection Hj as <- <-.
    discriminate.
  - pose proof (preserves_read_text (fun n => n = fs w) _ _ _ _ _ Hr eq_refl) as Hfs.
    injection He as <-.
    split; [exact Hfs|]. split; [|discriminate].
    intros ? [= <-].
    destruct (read_text_raises _ _ _ _ _ Hr) as [Hio| ->]; [|reflexivity].
    destruct e; try discriminate. reflexivity.
Qed.

(** C8: when the input path leads nowhere, or the content of the file is
    not valid JSON, the run ends with exit status 1 and the file system is
    as it was: no output directory, no file.  Whenever a run changed the
    file system, the store had been read and decoded before. *)
Theorem unreadable_store_aborts
  E acme_file out archive_old skip_existing w r w' :
  extract_certificates E acme_file out archive_old skip_existing w = (r, w') ->
  (lookup (fs w) acme_file = None \/
   (exists text m, lookup (fs w) acme_file = Some (File text m) /\
                   json_loads E text = None) ->
   exit_status r = 1%Z /\ fs w' = fs w) /\
  (fs w' <> fs w ->
   exists data w1, load_store E acme_file w = (Ok data, w1) /\ fs w1 = fs w).
Proof.
  intros H. unfold extract_certificates in H.
  destruct (bind_inv _ _ _ _ _ H) as [(data & w1 & Hload & _)|(e & Hload & ->)];
    destruct (load_store_inv _ _ _ _ _ Hload) as (Hfs & Hexit & Hok).
  - split.
    + destruct (Hok _ eq_refl) as (text & m & Hfile & Hjson).
      intros [Hmissing|(text' & m' & Hfile' & Hbad)]; congruence.
    + intros _. eauto.
  - split.
    + intros _. split; [exact (Hexit _ eq_refl)|exact Hfs].
    + intros Hchanged. contradiction.
Qed.

Lemma unreadable_store_aborts_witness :
  let run :=
    extract_certificates sample_env ["acme.json"] ["out"] false false
      (world_of (Dir [("acme.json", File "not json" 384)])) in
  exit_status (fst run) = 1%Z /\
  fs (snd run) = Dir [("acme.json", File "not json" 384)].
Proof.
  refine (proj1 (unreadable_store_aborts sample_env ["acme.json"] ["out"]
                   false false
                   (world_of (Dir [("acme.json", File "not json" 384)]))
                   _ _ _) _).
  - reflexivity.
  - right. exists "not json", 384%Z. split; reflexivity.
Defined.

(** ** The output directory *)

(** C10: once the store is loaded, the next thing the run does is create
    the output directory: if that fails the run ends there, before any
    record is looked at; if it succeeds the directory exists when the list
    of records is resolved and walked, and it is still there when the run
    ends, whatever the store holds, also when it holds no certificate. *)
Theorem output_dir_created_first
  E acme_file out archive_old skip_existing w data w1 :
  load_store E acme_file w = (Ok data, w1) ->
  (forall e w2,
      makedirs E out w1 = (Raise e, w2) ->
      extract_certificates E acme_file out archive_old skip_existing w
      = (Raise e, w2)) /\
  (forall w2,
      makedirs E out w1 = (Ok tt, w2) ->
      is_dir (fs w2) out /\
      extract_certificates E acme_file out archive_old skip_existing w
      = extract_store E out archive_old skip_existing data w2 /\
      is_dir (fs (snd (extract_certificates E acme_file out archive_old
                         skip_existing w))) out).
Proof.
  intros Hload. unfold extract_certificates.
  rewrite (bind_ok _ _ _ _ _ Hload). split.
  - intros e w2 Hmk. now rewrite (bind_raise _ _ _ _ _ Hmk).
  - intros w2 Hmk. rewrite (bind_ok _ _ _ _ _ Hmk).
    assert (Hdir : is_dir (fs w2) out).
    { apply effect_ok_inv in Hmk as [Hmk _].
      exact (fs_makedirs_is_dir _ _ _ Hmk). }
    split; [exact Hdir|]. split; [reflexivity|].
    destruct (extract_store E out archive_old skip_existing data w2)
      as [r w'] eqn:Hrun.
    apply (dir_stays_extract_store E out out archive_old skip_existing data
             ltac:(lia) _ _ _ Hrun Hdir).
Qed.

Lemma output_dir_created_first_witness :
  let w := world_of (Dir [("acme.json", File "{}" 384)]) in
  let run := extract_certificates sample_env ["acme.json"] ["out"] false false w in
  is_dir (fs (snd (makedirs sample_env ["out"]
                     (snd (load_store sample_env ["acme.json"] w))))) ["out"] /\
  run = extract_store sample_env ["out"] false false (VDict [])
          (snd (makedirs sample_env ["out"]
                  (snd (load_store sample_env ["acme.json"] w)))) /\
  is_dir (fs (snd run)) ["out"].
Proof.
  refine (proj2 (output_dir_created_first sample_env ["acme.json"] ["out"]
                   false false
                   (world_of (Dir [("acme.json", File "{}" 384)]))
                   (VDict []) _ _) _ _); reflexivity.
Defined.

(** ** The skip check *)

Lemma read_text_quiet E p w r w' :
  read_text E p w = (r, w') -> fs w' = fs w /\ stdout w' = stdout w.
Proof.
  intros H. unfold read_text in H.
  destruct (bind_inv _ _ _ _ _ H) as [(d & w1 & H1 & H2)|(e & H1 & _)].
  - destruct (query_inv _ _ _ _ _ H1) as (F1 & O1 & _).
    destruct (query_inv _ _ _ _ _ H2) as (F2 & O2 & _).
    split; congruence.
  - destruct (query_inv _ _ _ _ _ H1) as (F1 & O1 & _). now split.
Qed.

Lemma read_text_raises_exception E p w e w' :
  read_text E p w = (Raise e, w') -> is_Exception e = true.
Proof.
  intros H. destruct (read_text_raises _ _ _ _ _ H) as [Hio| ->]; [|reflexivity].
  now destruct e.
Qed.

Lemma compare_certificates_cases E cert_file key_file certificate key w :
  compare_certificates E cert_file key_file certificate key w
  = if is_some (lookup (fs w) cert_file) && is_some (lookup (fs w) key_file)
    then try_except (read_and_compare E cert_file key_file certificate key)
           is_Exception
           (fun e => print (MsgErrorComparing e) ;; ret false) w
    else (Ok false, w).
Proof.
  unfold compare_certificates, bind at 1 2, path_exists.
  destruct (is_some (lookup (fs w) cert_file)); [|reflexivity].
  cbn [ret andb]. destruct (is_some (lookup (fs w) key_file)); reflexivity.
Qed.

Lemma read_and_compare_inv E cert_file key_file certificate key w r w' :
  read_and_compare E cert_file key_file certificate key w = (r, w') ->
  fs w' = fs w /\ stdout w' = stdout w /\
  (r = Ok true ->
   content_of (fs w) cert_file = Some certificate /\
   content_of (fs w) key_file = Some key) /\
  (forall e, r = Raise e -> is_Exception e = true).
Proof.
  intros H. unfold read_and_compare in H.
  destruct (bind_inv _ _ _ _ _ H) as [(ec & w1 & H1 & H2)|(e & H1 & ->)].
  - destruct (read_text_quiet _ _ _ _ _ H1) as [F1 O1].
    destruct (read_text_ok _ _ _ _ _ H1) as [mc Hc].
    destruct (bind_inv _ _ _ _ _ H2) as [(ek & w2 & H3 & H4)|(e & H3 & ->)].
    + destruct (read_text_quiet _ _ _ _ _ H3) as [F3 O3].
      destruct (read_text_ok _ _ _ _ _ H3) as [mk Hk].
      rewrite F1 in Hk.
      destruct (String.eqb ec certificate && String.eqb ek key) eqn:Heq;
        injection H4 as <- <-;
        (split; [congruence|]); (split; [congruence|]);
        (split; [|discriminate]); [|discriminate].
      intros _. apply andb_true_iff in Heq as [Hec Hek].
      apply String.eqb_eq in Hec, Hek. subst.
      unfold content_of. now rewrite Hc, Hk.
    + destruct (read_text_quiet _ _ _ _ _ H3) as [F3 O3].
      (split; [congruence|]); (split; [congruence|]); (split; [discriminate|]).
      intros ? [= <-]. exact (read_text_raises_exception _ _ _ _ _ H3).
  - destruct (read_text_quiet _ _ _ _ _ H1) as [F1 O1].
    repeat split; try assumption; try discriminate.
    intros ? [= <-]. exact (read_text_raises_exception _ _ _ _ _ H1).
Qed.

(** The check never raises and never writes; it prints at most the report
    of a failed read. *)
Lemma compare_certificates_inv E cert_file key_file certificate key w r w' :
  compare_certificates E cert_file key_file certificate key w = (r, w') ->
  fs w' = fs w /\
  ((r = Ok true /\ stdout w' = stdout w /\
    content_of (fs w) cert_file = Some certificate /\
    content_of (fs w) key_file = Some key) \/
   (r = Ok false /\
    (stdout w' = stdout w \/
     exists e, stdout w' = stdout w ++ [MsgErrorComparing e]))).
Proof.
  rewrite compare_certificates_cases.
  destruct (_ && _); [|intros [= <- <-]; auto].
  intros H.
  destruct (try_except_inv _ _ _ _ _ _ H)
    as [(b & H1 & ->)|[(e & w1 & H1 & _ & H2)|(e & H1 & Hc & ->)]];
    destruct (read_and_compare_inv _ _ _ _ _ _ _ _ H1) as (F & O & Htrue & Hexn).
  - split; [exact F|]. destruct b.
    + left. destruct (Htrue eq_refl). auto.
    + right. auto.
  - cbv [bind print ret] in H2. injection H2 as <- <-. cbn.
    split; [exact F|]. right. split; [reflexivity|]. right.
    exists e. now rewrite O.
  - rewrite (Hexn _ eq_refl) in Hc. discriminate.
Qed.





(** ** Records that cannot be decoded *)

Lemma a2b_loop_raises s : forall quad_pos leftchar pads acc e,
  a2b_loop s quad_pos leftchar pads acc = Raise e -> e = BinasciiError.
Proof.
  induction s as [|c s IH]; intros quad_pos leftchar pads acc e; cbn [a2b_loop].
  - destruct (quad_pos =? 0)%N; congruence.
  - repeat match goal with
           | |- context [if ?b then _ else _] => destruct b
           | |- context [match b64_digit ?x with _ => _ end] =>
               destruct (b64_digit x)
           end;
      solve [discriminate | apply IH].
Qed.

Lemma decode_field_raises v e :
  decode_field v = Raise e -> is_Exception e = true.
Proof.
  unfold decode_field, py_b64decode, a2b_base64, utf8_decode.
  destruct v; cbn [rbind]; try (now intros [= <-]).
  destruct (is_ascii_only s); [|now intros [= <-]].
  destruct (a2b_loop s 0 0 0 []) as [b|e'] eqn:Hb; cbn [rbind].
  - destruct (utf8_valid b); [discriminate|now intros [= <-]].
  - intros [= <-]. now rewrite (a2b_loop_raises _ _ _ _ _ _ Hb).
Qed.





Example empty_field_record :
  resolve_domain record_empty_cert = Ok (VStr "a.example") /\
  py_get record_empty_cert "certificate" (VStr "") = Ok (VStr "") /\
  loop_body sample_env ["out"] false false record_empty_cert 0
    (world_of (Dir []))
  = (Ok 0%nat, world_of (Dir [])).
Proof. repeat split. Qed.

(** ** A record whose domain cannot be resolved *)

(** C1, where the program departs from it: domain resolution (lines 60 to
    67) runs before the [try] of line 73, so the [KeyError] of a [domains]
    list whose first element has no [main] leaves the loop: no later record
    is processed, nothing is printed, the process ends with status 1. *)
Theorem domain_error_escapes_the_loop :
  (forall E out archive_old skip_existing rest n w,
      for_each (loop_body E out archive_old skip_existing)
        (record_no_main :: rest) n w
      = (Raise (KeyError (VStr "main")), w)) /\
  let run := extract_certificates sample_env ["acme.json"] ["out"] false false
               sample_world in
  fst run = Raise (KeyError (VStr "main")) /\
  exit_status (fst run) = 1%Z /\
  is_some (lookup (fs (snd run)) ["out"; "wildcard.a.example"]) = true /\
  lookup (fs (snd run)) ["out"; "b.example"] = None /\
  stdout (snd run) = [].
Proof.
  split.
  - intros. cbn [for_each]. apply bind_raise.
    unfold loop_body. now rewrite bind_lift.
  - vm_compute. repeat split.
Qed.

(** ** What the [try] of a record catches *)

Lemma reo_ret {A} (a : A) : raises_exceptions_only (ret a).
Proof. intros w e w'. discriminate. Qed.

Lemma reo_print msg : raises_exceptions_only (print msg).
Proof. intros w e w'. discriminate. Qed.

Lemma reo_now E : raises_exceptions_only (now E).
Proof. intros w e w'. discriminate. Qed.

Lemma reo_path_exists p : raises_exceptions_only (path_exists p).
Proof. intros w e w'. discriminate. Qed.

Lemma reo_lift {A} (r : result A) :
  (forall e, r = Raise e -> is_Exception e = true) ->
  raises_exceptions_only (lift r).
Proof. intros Hr w e w' [= -> _]. now apply Hr. Qed.

Lemma reo_bind {A B} (m : M A) (k : A -> M B) :
  raises_exceptions_only m -> (forall a, raises_exceptions_only (k a)) ->
  raises_exceptions_only (bind m k).
Proof.
  intros Hm Hk w e w' H.
  destruct (bind_inv _ _ _ _ _ H) as [(a & w1 & _ & H2)|(e' & H1 & [= <-])].
  - exact (Hk _ _ _ _ H2).
  - exact (Hm _ _ _ H1).
Qed.

Lemma reo_try_except {A} (m : M A) catches h :
  raises_exceptions_only m -> (forall e, raises_exceptions_only (h e)) ->
  raises_exceptions_only (try_except m catches h).
Proof.
  intros Hm Hh w e w' H.
  destruct (try_except_inv _ _ _ _ _ _ H)
    as [(a & _ & ?)|[(e' & w1 & _ & _ & H2)|(e' & H1 & _ & [= <-])]].
  - discriminate.
  - exact (Hh _ _ _ _ H2).
  - exact (Hm _ _ _ H1).
Qed.

Lemma reo_or_continue m catches msg :
  raises_exceptions_only m -> raises_exceptions_only (or_continue m catches msg).
Proof.
  intros Hm. apply reo_try_except.
  - apply reo_bind; [exact Hm|]. intros. apply reo_ret.
  - intros. apply reo_bind; [apply reo_print|]. intros. apply reo_ret.
Qed.

Lemma reo_effect E (op : node -> result node) :
  (forall n e, op n = Raise e -> is_Exception e = true) ->
  raises_exceptions_only (syscall E (effect op)).
Proof.
  intros Hop w e w' H.
  destruct (syscall_inv _ _ _ _ _ H) as (_ & _ & [(a & ? & _)|(e' & [= <-] & _ & Hwhy)]);
    [discriminate|].
  destruct Hwhy as [[err ->]|Hraise]; [reflexivity|].
  unfold effect in Hraise.
  destruct (op (fs w)) eqn:Hn; cbn in Hraise; [discriminate|].
  injection Hraise as <-. eauto.
Qed.

Lemma alter_raises f p : forall o e,
  (forall o' e', f o' = Raise e' -> is_Exception e' = true) ->
  alter f p o = Raise e -> is_Exception e = true.
Proof.
  induction p as [|x p IH]; intros o e Hf H; cbn in H; [eauto|].
  destruct o as [[d m|es]|]; try (now injection H as <-).
  destruct (alter f p (assoc x es)) eqn:Hc; cbn in H; [discriminate|].
  injection H as <-. eauto.
Qed.

Lemma alter_root_raises f p n e :
  (forall o' e', f o' = Raise e' -> is_Exception e' = true) ->
  alter_root f p n = Raise e -> is_Exception e = true.
Proof.
  intros Hf. unfold alter_root.
  destruct (alter f p (Some n)) as [[r|]|e'] eqn:Ha; cbn; try discriminate.
  - now intros [= <-].
  - intros [= <-]. exact (alter_raises _ _ _ _ Hf Ha).
Qed.

Lemma fs_makedirs_raises p : forall o e,
  fs_makedirs p o = Raise e -> is_Exception e = true.
Proof.
  induction p as [|x p IH]; intros o e H;
    destruct o as [[d m|es]|]; cbn in H; try discriminate;
    try (now injection H as <-).
  destruct (fs_makedirs p (assoc x es)) eqn:Hc; cbn in H; [discriminate|].
  injection H as <-. eauto.
Qed.

Lemma fs_move_raises src dst n e :
  fs_move src dst n = Raise e -> is_Exception e = true.
Proof.
  unfold fs_move.
  destruct (resolve n src) as [c|e'] eqn:Hr; cbn [rbind].
  - assert (Hstep : forall real_dst,
               (let? r := fs_remove src n in fs_put real_dst c r) = Raise e ->
               is_Exception e = true).
    { intros real_dst H.
      destruct (fs_remove src n) as [r|e'] eqn:Hrm; cbn in H.
      - revert H. apply alter_root_raises. intros o1 e1. discriminate.
      - injection H as <-. revert Hrm. apply alter_root_raises.
        intros [o1|] e1; [discriminate|now intros [= <-]]. }
    destruct (lookup n dst) as [[d m|es]|].
    + destruct c; [apply Hstep|now intros [= <-]].
    + destruct (lookup n (path_join dst (last src ""))); [now intros [= <-]|apply Hstep].
    + apply Hstep.
  - intros [= <-]. pose proof (resolve_raises _ _ _ Hr). now destruct e'.
Qed.

Lemma reo_file_op E f p :
  (forall o' e', f o' = Raise e' -> is_Exception e' = true) ->
  raises_exceptions_only (syscall E (effect (alter_root f p))).
Proof. intros Hf. apply reo_effect. intros n e. now apply alter_root_raises. Qed.

Lemma reo_makedirs E p : raises_exceptions_only (makedirs E p).
Proof. apply reo_effect. intros n e. apply fs_makedirs_raises. Qed.

Lemma reo_open_w E p : raises_exceptions_only (open_w E p).
Proof.
  apply reo_file_op. intros [[d m|es]|] e; try discriminate. now intros [= <-].
Qed.

Lemma reo_f_write E p s : raises_exceptions_only (f_write E p s).
Proof.
  apply reo_file_op. intros [[d m|es]|] e; try discriminate; now intros [= <-].
Qed.

Lemma reo_chmod E p mode : raises_exceptions_only (chmod E p mode).
Proof.
  apply reo_file_op. intros [[d m|es]|] e; try discriminate. now intros [= <-].
Qed.

Lemma reo_compare_certificates E cert_file key_file certificate key :
  raises_exceptions_only
    (compare_certificates E cert_file key_file certificate key).
Proof.
  intros w e w' H.
  destruct (compare_certificates_inv _ _ _ _ _ _ _ _ H) as (_ & [(? & _)|(? & _)]);
    discriminate.
Qed.

Lemma reo_archive_old_files E folder :
  raises_exceptions_only (archive_old_files E folder).
Proof.
  assert (Hfile : forall name,
             raises_exceptions_only
               (archive_file E folder (path_join folder "archive") name)).
  { intros name. unfold archive_file.
    apply reo_bind; [apply reo_path_exists|]. intros [|]; [|apply reo_ret].
    apply reo_bind; [apply reo_now|]. intros timestamp.
    apply reo_try_except; [|intros; apply reo_print].
    apply reo_bind; [|intros; apply reo_print].
    apply reo_effect. intros n e. apply fs_move_raises. }
  unfold archive_old_files.
  repeat (apply reo_bind; [first [apply reo_makedirs|apply Hfile]|intros _]).
  apply Hfile.
Qed.

Lemma reo_save_files E domain cert_file key_file combined_file certificate key n :
  raises_exceptions_only
    (save_files E domain cert_file key_file combined_file certificate key n).
Proof.
  unfold save_files.
  repeat (first
    [ apply reo_ret
    | apply reo_open_w
    | apply reo_f_write
    | apply reo_chmod
    | apply reo_or_continue
    | apply reo_bind; [|intros []] ]).
Qed.

Lemma reo_extract_record E out archive_old skip_existing domain
  certificate_b64 key_b64 n :
  raises_exceptions_only
    (extract_record E out archive_old skip_existing domain certificate_b64
       key_b64 n).
Proof.
  unfold extract_record.
  apply reo_bind; [apply reo_lift, decode_field_raises|]. intros certificate.
  apply reo_bind; [apply reo_lift, decode_field_raises|]. intros key.
  apply reo_bind.
  { apply reo_lift. destruct domain; cbn; try discriminate; now intros ? [= <-]. }
  intros sanitized.
  apply reo_bind; [apply reo_makedirs|]. intros _.
  unfold fill_folder.
  apply reo_bind.
  { destruct skip_existing; [apply reo_compare_certificates|apply reo_ret]. }
  intros [|].
  - apply reo_bind; [apply reo_print|]. intros. apply reo_ret.
  - apply reo_bind; [|intros; apply reo_save_files].
    destruct archive_old; [apply reo_archive_old_files|apply reo_ret].
Qed.


(** ** Worked runs *)

Example b64decode_cert : py_b64decode (VStr "Q0VSVA==") = Ok "CERT".
Proof. reflexivity. Qed.

Example b64decode_newline :
  py_b64decode (VStr ("S0VZ" ++ String "010" "Cg==")%string)
  = Ok ("KEY" ++ String "010" "")%string.
Proof. reflexivity. Qed.

Example b64decode_bad_padding : py_b64decode (VStr "Q0VSVA") = Raise BinasciiError.
Proof. reflexivity. Qed.

Example utf8_decode_bad : utf8_decode (String "255" "") = Raise UnicodeDecodeError.
Proof. reflexivity. Qed.

Example replace_every_star :
  str_replace "*.a.*.example" "*" "wildcard" = "wildcard.a.wildcard.example".
Proof. reflexivity. Qed.

Example replace_leftmost_first : str_replace "aXXXb" "XX" "y" = "ayXb".
Proof. reflexivity. Qed.

Example resolve_domain_main :
  resolve_domain (VDict [("domain", VDict [("main", VStr "a.example")])])
  = Ok (VStr "a.example").
Proof. reflexivity. Qed.

Example resolve_domain_of_string_field :
  resolve_domain (VDict [("domain", VStr "a.example")]) = Raise AttributeError.
Proof. reflexivity. Qed.

(** A store with two good records: both are extracted, the key files are
    private, and the summary line counts two. *)
Example run_two_records :
  let store := VDict [("acme", VDict [("Certificates", VList [record_a; record_b])])] in
  let E := {| json_loads := fun _ => Some store; umask := 18;
              clock := fun _ => "20240101_000000"; fault := fun _ => None |} in
  let run := extract_certificates E ["acme.json"] ["out"] false false
               (world_of (Dir [("acme.json", File "..." 384)])) in
  fst run = Ok tt /\
  stdout (snd run) = [MsgExtracted 2 ["out"]] /\
  lookup (fs (snd run)) ["out"]
  = Some (Dir [("wildcard.a.example",
                Dir [("certificate.pem", File "CERT" 420);
                     ("private_key.pem", File "KEY" 384);
                     ("combined.pem", File "CERTKEY" 384)]);
               ("b.example",
                Dir [("certificate.pem", File "CERT" 420);
                     ("private_key.pem", File "KEY" 384);
                     ("combined.pem", File "CERTKEY" 384)])]).
Proof. vm_compute. repeat split. Qed.

(** The store is missing: one line, [sys.exit(1)], nothing created. *)
Example run_without_store :
  extract_certificates sample_env ["acme.json"] ["out"] false false
    (world_of (Dir []))
  = (Raise (SystemExit 1),
     {| fs := Dir []; stdout := [MsgFileNotFound ["acme.json"]];
        steps := 1; ticks := 0 |}).
Proof. reflexivity. Qed.

(** The disk is full when [private_key.pem] is written (the fifth call of
    the record): the record is given up after its line, the certificate
    stays on disk, the count does not move. *)
Example run_with_full_disk :
  let E := {| json_loads := json_loads sample_env; umask := 18;
              clock := clock sample_env;
              fault := fun step => if Nat.eqb step 4 then Some ENOSPC else None |} in
  loop_body E ["out"] false false record_b 0 (world_of (Dir []))
  = (Ok 0%nat,
     {| fs := Dir [("out", Dir [("b.example",
                Dir [("certificate.pem", File "CERT" 420);
                     ("private_key.pem", File "" 420)])])];
        stdout := [MsgErrorWritingPrivateKey (VStr "b.example") (OSError ENOSPC)];
        steps := 5; ticks := 0 |}).
Proof. reflexivity. Qed.

(** A second run with archiving moves the three files away first. *)
Example run_with_archive :
  let run := loop_body sample_env ["out"] true false record_a 0 extracted_world in
  fst run = Ok 1%nat /\
  lookup (fs (snd run)) ["out"; "wildcard.a.example"; "archive"]
  = Some (Dir [("certificate.pem_20240101_000000", File "CERT" 420);
               ("private_key.pem_20240101_000000", File "KEY" 384);
               ("combined.pem_20240101_000000", File "CERTKEY" 384)]) /\
  content_of (fs (snd run)) ["out"; "wildcard.a.example"; "combined.pem"]
  = Some "CERTKEY".
Proof. vm_compute. repeat split. Qed.

(** Three records, the second with a payload that is not base64: two are
    extracted, one line reports the second, the run returns normally. *)
Example run_with_one_bad_record :
  let bad := sample_record ("domain", VDict [("main", VStr "c.example")])
               "Q0VSVA" "S0VZ" in
  let store := VDict [("letsencrypt",
                       VDict [("Certificates", VList [record_a; bad; record_b])])] in
  let run := extract_store sample_env ["out"] false false store
               (world_of (Dir [("out", Dir [])])) in
  fst run = Ok tt /\
  exit_status (fst run) = 0%Z /\
  stdout (snd run)
  = [MsgErrorProcessing (VStr "c.example") BinasciiError;
     MsgExtracted 2 ["out"]] /\
  lookup (fs (snd run)) ["out"; "c.example"] = None.
Proof. vm_compute. repeat split. Qed.

(** * Further properties of the program *)

(** ** Records and stores of the wrong shape *)

(** A record that is not a JSON object never reaches the [try]: the probes
    of lines 61 to 70 raise, the exception leaves the loop, and nothing has
    been printed or written for the record. *)
Theorem non_object_record_aborts E out archive_old skip_existing cert_data n w :
  is_object cert_data = false ->
  exists e,
    loop_body E out archive_old skip_existing cert_data n w = (Raise e, w) /\
    (e = TypeError \/ e = AttributeError).
Proof.
  intros Hshape. unfold loop_body. rewrite bind_lift.
  destruct cert_data as [| b | z | f | s | l | r]; try discriminate;
    unfold resolve_domain; cbn [py_contains py_getitem as_index rbind];
    try (eexists; split; [reflexivity|auto]).
  - destruct (is_substring "domain" s); cbn [rbind];
      [eexists; split; [reflexivity|auto]|].
    destruct (is_substring "domains" s); cbn [rbind];
      eexists; (split; [reflexivity|auto]).
  - destruct (existsb (is_str "domain") l); cbn [rbind];
      [eexists; split; [reflexivity|auto]|].
    destruct (existsb (is_str "domains") l); cbn [rbind];
      eexists; (split; [reflexivity|auto]).
Qed.

Lemma non_object_record_aborts_witness :
  exists e,
    loop_body sample_env ["out"] false false (VStr "a.example") 0
      (world_of (Dir [])) = (Raise e, world_of (Dir [])) /\
    (e = TypeError \/ e = AttributeError).
Proof.
  apply (non_object_record_aborts sample_env ["out"] false false
           (VStr "a.example") 0 (world_of (Dir []))).
  reflexivity.
Defined.

(** A record whose domain resolved to something that is not a string (a
    number, a list, [null]) and whose payloads decode is given up on line
    79, before any folder is made: one line names the value and the
    [AttributeError], the file system and the count are as before. *)
Theorem non_string_domain_is_reported
  E out archive_old skip_existing cert_data n w
  domain certificate_b64 key_b64 certificate key :
  resolve_domain cert_data = Ok domain ->
  (forall d, domain <> VStr d) ->
  py_get cert_data "certificate" (VStr "") = Ok certificate_b64 ->
  py_get cert_data "key" (VStr "") = Ok key_b64 ->
  py_truthy certificate_b64 && py_truthy key_b64 = true ->
  decode_field certificate_b64 = Ok certificate ->
  decode_field key_b64 = Ok key ->
  loop_body E out archive_old skip_existing cert_data n w
  = (Ok n, {| fs := fs w;
              stdout := stdout w ++ [MsgErrorProcessing domain AttributeError];
              steps := steps w;
              ticks := ticks w |}).
Proof.
  intros Hd Hshape Hcb Hkb Ht Hc Hk.
  rewrite (loop_body_tries _ _ _ _ _ _ _ _ _ _ Hd Hcb Hkb Ht).
  unfold try_except, extract_record.
  rewrite bind_lift, Hc, bind_lift, Hk, bind_lift.
  destruct domain; try reflexivity.
  now destruct (Hshape s).
Qed.

Lemma non_string_domain_is_reported_witness :
  loop_body sample_env ["out"] false false
    (sample_record ("domain", VDict [("main", VInt 7)]) "Q0VSVA==" "S0VZ")
    0 (world_of (Dir []))
  = (Ok 0%nat,
     {| fs := Dir [];
        stdout := [MsgErrorProcessing (VInt 7) AttributeError];
        steps := 0;
        ticks := 0 |}).
Proof.
  apply (non_string_domain_is_reported sample_env ["out"] false false
           (sample_record ("domain", VDict [("main", VInt 7)]) "Q0VSVA==" "S0VZ")
           0 (world_of (Dir [])) (VInt 7) (VStr "Q0VSVA==") (VStr "S0VZ")
           "CERT" "KEY"); try reflexivity.
  intros d. discriminate.
Defined.

(** A document that is not an object, or whose [letsencrypt] entry is not
    an object (for one, [null]), makes line 50 raise [AttributeError]: no
    fallback to [acme] is tried, no record is looked at, nothing is
    printed, and the process ends with status 1. *)
Theorem store_of_wrong_shape_aborts E out archive_old skip_existing data w :
  is_object data = false \/
  (exists store v,
      data = VDict store /\ assoc "letsencrypt" store = Some v /\
      is_object v = false) ->
  extract_store E out archive_old skip_existing data w
  = (Raise AttributeError, w) /\
  exit_status (Raise AttributeError) = 1%Z.
Proof.
  intros Hshape. split; [|reflexivity].
  rewrite extract_store_cases.
  destruct Hshape as [Hdata|(store & v & -> & Hle & Hv)].
  - destruct data; try discriminate; reflexivity.
  - rewrite certificates_of_dict, Hle.
    destruct v; try discriminate; reflexivity.
Qed.

Lemma store_of_wrong_shape_aborts_witness :
  extract_store sample_env ["out"] false false
    (VDict [("letsencrypt", VNone);
            ("acme", VDict [("Certificates", VList [record_a])])])
    (world_of (Dir [("out", Dir [])]))
  = (Raise AttributeError, world_of (Dir [("out", Dir [])])) /\
  exit_status (Raise AttributeError) = 1%Z.
Proof.
  apply (store_of_wrong_shape_aborts sample_env ["out"] false false).
  right. exists [("letsencrypt", VNone);
                 ("acme", VDict [("Certificates", VList [record_a])])], VNone.
  repeat split.
Defined.

(** ** What can be raised, and the exit status *)

Lemma fwe_ok {A} (a : A) : fails_with_exception (Ok a).
Proof. intros e. discriminate. Qed.

Lemma fwe_raise {A} e : is_Exception e = true -> fails_with_exception (@Raise A e).
Proof. intros He e' [= <-]. exact He. Qed.

Lemma fwe_rbind {A B} (r : result A) (k : A -> result B) :
  fails_with_exception r -> (forall a, fails_with_exception (k a)) ->
  fails_with_exception (rbind r k).
Proof.
  intros Hr Hk. destruct r as [a|e]; cbn; [apply Hk|].
  intros e' [= <-]. now apply Hr.
Qed.

Lemma py_contains_exc k v : fails_with_exception (py_contains k v).
Proof. destruct v; cbn; first [apply fwe_ok|now apply fwe_raise]. Qed.

Lemma py_getitem_exc v k : fails_with_exception (py_getitem v k).
Proof.
  unfold py_getitem.
  repeat match goal with
         | |- fails_with_exception (match ?x with _ => _ end) => destruct x
         end;
    first [apply fwe_ok|now apply fwe_raise].
Qed.

Lemma py_get_exc v k default : fails_with_exception (py_get v k default).
Proof. destruct v; cbn; first [apply fwe_ok|now apply fwe_raise]. Qed.

Lemma py_values_exc v : fails_with_exception (py_values v).
Proof. destruct v; cbn; first [apply fwe_ok|now apply fwe_raise]. Qed.

Lemma py_iter_exc v : fails_with_exception (py_iter v).
Proof. destruct v; cbn; first [apply fwe_ok|now apply fwe_raise]. Qed.

Ltac fwe :=
  repeat first
    [ apply fwe_ok
    | apply py_contains_exc
    | apply py_getitem_exc
    | apply py_get_exc
    | apply py_values_exc
    | apply fwe_rbind; [|intros ?]
    | match goal with
      | |- fails_with_exception (if ?b then _ else _) => destruct b
      end ].

Lemma resolve_domain_exc cert_data : fails_with_exception (resolve_domain cert_data).
Proof. unfold resolve_domain. fwe. Qed.

Lemma certificates_of_exc data : fails_with_exception (certificates_of data).
Proof. unfold certificates_of. fwe. Qed.

Lemma reo_loop_body E out archive_old skip_existing cert_data n :
  raises_exceptions_only (loop_body E out archive_old skip_existing cert_data n).
Proof.
  unfold loop_body.
  apply reo_bind; [apply reo_lift, resolve_domain_exc|]. intros domain.
  apply reo_bind; [apply reo_lift, py_get_exc|]. intros certificate_b64.
  apply reo_bind; [apply reo_lift, py_get_exc|]. intros key_b64.
  destruct (_ && _); [|apply reo_ret].
  apply reo_try_except; [apply reo_extract_record|].
  intros e. apply reo_bind; [apply reo_print|]. intros. apply reo_ret.
Qed.

Lemma reo_for_each E out archive_old skip_existing items : forall n,
  raises_exceptions_only
    (for_each (loop_body E out archive_old skip_existing) items n).
Proof.
  induction items as [|cert_data rest IH]; intros n; cbn [for_each].
  - apply reo_ret.
  - apply reo_bind; [apply reo_loop_body|]. intros. apply IH.
Qed.

Lemma reo_extract_store E out archive_old skip_existing data :
  raises_exceptions_only (extract_store E out archive_old skip_existing data).
Proof.
  unfold extract_store.
  apply reo_bind; [apply reo_lift, certificates_of_exc|]. intros certificates_data.
  destruct (negb _); [apply reo_print|].
  apply reo_bind; [apply reo_lift, py_iter_exc|]. intros items.
  apply reo_bind; [apply reo_for_each|]. intros. apply reo_print.
Qed.

Lemma exception_status e : is_Exception e = true -> exit_status (Raise e) = 1%Z.
Proof. now destruct e. Qed.

(** Whatever ends a run early ends it with status 1. *)
Lemma extract_certificates_raises E acme_file out archive_old skip_existing
  w e w' :
  extract_certificates E acme_file out archive_old skip_existing w
  = (Raise e, w') ->
  exit_status (Raise e) = 1%Z.
Proof.
  intros H. unfold extract_certificates in H.
  destruct (bind_inv _ _ _ _ _ H) as [(data & w1 & _ & H1)|(e' & Hload & [= <-])].
  - apply exception_status. revert H1. apply reo_bind; [apply reo_makedirs|].
    intros _. apply reo_extract_store.
  - destruct (load_store_inv _ _ _ _ _ Hload) as (_ & Hexit & _).
    exact (Hexit _ eq_refl).
Qed.

(** The process knows two exit statuses: 0 when [extract_certificates]
    returns, whatever happened to the records, and 1 when the store cannot
    be loaded or an exception leaves the function; no other status, for
    any store, any state of the disk and any failure of the operating
    system. *)
Theorem exit_status_is_zero_or_one E acme_file out archive_old skip_existing w :
  let r := fst (extract_certificates E acme_file out archive_old skip_existing w) in
  (r = Ok tt /\ exit_status r = 0%Z) \/
  ((exists e, r = Raise e) /\ exit_status r = 1%Z).
Proof.
  destruct (extract_certificates E acme_file out archive_old skip_existing w)
    as [[[]|e] w'] eqn:H; cbn.
  - left. split; reflexivity.
  - right. split; [eauto|].
    exact (extract_certificates_raises _ _ _ _ _ _ _ _ H).
Qed.

(** ** The summary line *)




(** ** The skip check answers, and a second run skips *)











(** ** How the saving of a record can end *)

Lemma quiet_ret {A} (a : A) : quiet (ret a).
Proof. now intros w r w' [= _ <-]. Qed.

Lemma quiet_bind {A B} (m : M A) (k : A -> M B) :
  quiet m -> (forall a, quiet (k a)) -> quiet (bind m k).
Proof.
  intros Hm Hk w r w' H.
  destruct (bind_inv _ _ _ _ _ H) as [(a & w1 & H1 & H2)|(e & H1 & _)].
  - rewrite (Hk _ _ _ _ H2). exact (Hm _ _ _ H1).
  - exact (Hm _ _ _ H1).
Qed.

Lemma quiet_syscall {A} E (op : node -> result (A * node)) : quiet (syscall E op).
Proof. intros w r w' H. now destruct (syscall_inv _ _ _ _ _ H). Qed.

Lemma alter_raises_ioerror f p : forall o e,
  (forall o' e', f o' = Raise e' -> is_IOError e' = true) ->
  alter f p o = Raise e -> is_IOError e = true.
Proof.
  induction p as [|x p IH]; intros o e Hf H; cbn in H; [eauto|].
  destruct o as [[d m|es]|]; try (now injection H as <-).
  destruct (alter f p (assoc x es)) eqn:Hc; cbn in H; [discriminate|].
  injection H as <-. eauto.
Qed.

Lemma rio_file_op E f p :
  (forall o' e', f o' = Raise e' -> is_IOError e' = true) ->
  raises_ioerror_only (syscall E (effect (alter_root f p))).
Proof.
  intros Hf w e w' H.
  destruct (syscall_inv _ _ _ _ _ H) as (_ & _ & [(a & ? & _)|(e' & [= <-] & _ & Hwhy)]);
    [discriminate|].
  destruct Hwhy as [[err ->]|Hraise]; [reflexivity|].
  unfold effect, alter_root in Hraise.
  destruct (alter f p (Some (fs w))) as [[r|]|e'] eqn:Ha; cbn in Hraise;
    try discriminate; injection Hraise as <-; [reflexivity|].
  exact (alter_raises_ioerror _ _ _ _ Hf Ha).
Qed.

Lemma rio_open_w E p : raises_ioerror_only (open_w E p).
Proof.
  apply rio_file_op. intros [[d m|es]|] e; try discriminate. now intros [= <-].
Qed.

Lemma rio_f_write E p s : raises_ioerror_only (f_write E p s).
Proof.
  apply rio_file_op. intros [[d m|es]|] e; try discriminate; now intros [= <-].
Qed.

Lemma rio_bind {A B} (m : M A) (k : A -> M B) :
  raises_ioerror_only m -> (forall a, raises_ioerror_only (k a)) ->
  raises_ioerror_only (bind m k).
Proof.
  intros Hm Hk w e w' H.
  destruct (bind_inv _ _ _ _ _ H) as [(a & w1 & _ & H2)|(e' & H1 & [= <-])].
  - exact (Hk _ _ _ _ H2).
  - exact (Hm _ _ _ H1).
Qed.

(** A guarded block whose every failure is caught either went through or
    left one line. *)
Lemma or_continue_outcome m catches msg w r w' :
  (forall e w1, m w = (Raise e, w1) -> catches e = true) ->
  or_continue m catches msg w = (r, w') ->
  (r = Ok true /\ m w = (Ok tt, w')) \/
  (exists e w1,
      r = Ok false /\ m w = (Raise e, w1) /\
      fs w' = fs w1 /\ stdout w' = stdout w1 ++ [msg e]).
Proof.
  intros Hcatch. unfold or_continue, try_except, bind, ret, print.
  destruct (m w) as [[[]|e] w1] eqn:Hm.
  - intros [= <- <-]. now left.
  - rewrite (Hcatch _ _ eq_refl). intros [= <- <-]. right. eauto 8.
Qed.

(** A file operation leaves alone what lies apart from its path, also when
    it fails. *)
Lemma file_op_frame E f p q (X : option node) :
  diverge p q = true ->
  preserves (fun n => lookup n q = X) (syscall E (effect (alter_root f p))).
Proof.
  intros Hd. apply preserves_effect. intros n n' H <-.
  exact (alter_root_diverge _ _ _ _ _ H Hd).
Qed.

Lemma write_file_frame E p s q X :
  diverge p q = true ->
  preserves (fun n => lookup n q = X) (open_w E p ;; f_write E p s).
Proof.
  intros Hd. apply preserves_bind; [now apply file_op_frame|].
  intros _. now apply file_op_frame.
Qed.

Lemma write_both_frame E p a b q X :
  diverge p q = true ->
  preserves (fun n => lookup n q = X)
    (open_w E p ;; f_write E p a ;; f_write E p b).
Proof.
  intros Hd. apply preserves_bind; [now apply file_op_frame|]. intros _.
  apply preserves_bind; [now apply file_op_frame|]. intros _.
  now apply file_op_frame.
Qed.

(** [os.chmod] changes no text. *)
Lemma chmod_keeps_content E p mode q text :
  preserves (fun n => content_of n q = Some text) (chmod E p mode).
Proof.
  apply preserves_effect. intros n n' H Hq. unfold content_of in *.
  apply alter_root_inv in H. revert p q n n' H Hq.
  assert (Hgen : forall p q o o',
             alter (fun o =>
                      match o with
                      | Some (File d _) => Ok (Some (File d mode))
                      | Some (Dir es) => Ok (Some (Dir es))
                      | None => Raise (OSError ENOENT)
                      end) p o = Ok o' ->
             match olookup o q with Some (File d _) => Some d | _ => None end
             = Some text ->
             match olookup o' q with Some (File d _) => Some d | _ => None end
             = Some text).
  { induction p as [|x p IH]; intros q o o' H Hq; cbn in H.
    - destruct o as [[d m|es]|]; try discriminate; injection H as <-;
        [|exact Hq].
      destruct q; [exact Hq|discriminate].
    - destruct o as [[d m|es]|]; try discriminate.
      destruct (alter _ p (assoc x es)) as [c|] eqn:Hc; cbn in H; [|discriminate].
      injection H as <-.
      destruct q as [|y q]; [discriminate|].
      rewrite olookup_cons_dir in *.
      destruct (String.eqb x y) eqn:Hxy.
      + apply String.eqb_eq in Hxy. subst y.
        specialize (IH q _ _ Hc Hq).
        destruct c; now rewrite ?assoc_aset_eq, ?assoc_adel_eq.
      + rewrite String.eqb_sym in Hxy.
        destruct c; now rewrite ?assoc_aset_neq, ?assoc_adel_neq by exact Hxy. }
  intros p q n n' H Hq. exact (Hgen p q (Some n) (Some n') H Hq).
Qed.

Lemma guarded_block m catches msg w r w' :
  (forall w0 e w1, m w0 = (Raise e, w1) -> catches e = true) -> quiet m ->
  or_continue m catches msg w = (r, w') ->
  (r = Ok true /\ m w = (Ok tt, w') /\ stdout w' = stdout w) \/
  (exists e w1,
      r = Ok false /\ m w = (Raise e, w1) /\
      fs w' = fs w1 /\ stdout w' = stdout w ++ [msg e]).
Proof.
  intros Hcatch Hquiet H.
  destruct (or_continue_outcome _ _ _ _ _ _ (Hcatch w) H)
    as [(-> & Hm)|(e & w1 & -> & Hm & Hfs & Hout)].
  - left. repeat split; [exact Hm|exact (Hquiet _ _ _ Hm)].
  - right. exists e, w1. repeat split; try assumption.
    now rewrite Hout, (Hquiet _ _ _ Hm).
Qed.

Lemma content_of_file root p text m :
  lookup root p = Some (File text m) -> content_of root p = Some text.
Proof. unfold content_of. now intros ->. Qed.

(** The five ways [save_files] ends, with what is on disk in each. *)
Lemma save_files_outcome E domain folder certificate key n w r w' :
  save_files E domain (path_join folder "certificate.pem")
    (path_join folder "private_key.pem") (path_join folder "combined.pem")
    certificate key n w = (r, w') ->
  (r = Ok (S n) /\ stdout w' = stdout w) \/
  (r = Ok n /\
   exists e,
     (stdout w' = stdout w ++ [MsgErrorWritingCertificate domain e] /\
      lookup (fs w') (path_join folder "private_key.pem")
      = lookup (fs w) (path_join folder "private_key.pem") /\
      lookup (fs w') (path_join folder "combined.pem")
      = lookup (fs w) (path_join folder "combined.pem")) \/
     (stdout w' = stdout w ++ [MsgErrorWritingPrivateKey domain e] /\
      content_of (fs w') (path_join folder "certificate.pem") = Some certificate /\
      lookup (fs w') (path_join folder "combined.pem")
      = lookup (fs w) (path_join folder "combined.pem")) \/
     (stdout w' = stdout w ++ [MsgErrorWritingCombined domain e] /\
      content_of (fs w') (path_join folder "certificate.pem") = Some certificate /\
      content_of (fs w') (path_join folder "private_key.pem") = Some key) \/
     (stdout w' = stdout w ++ [MsgErrorSettingPermissions domain e] /\
      content_of (fs w') (path_join folder "certificate.pem") = Some certificate /\
      content_of (fs w') (path_join folder "private_key.pem") = Some key /\
      content_of (fs w') (path_join folder "combined.pem")
      = Some (certificate ++ key)%string)).
Proof.
  set (C := path_join folder "certificate.pem").
  set (K := path_join folder "private_key.pem").
  set (B := path_join folder "combined.pem").
  assert (Dck : diverge C K = true) by now apply diverge_siblings.
  assert (Dcb : diverge C B = true) by now apply diverge_siblings.
  assert (Dkc : diverge K C = true) by now apply diverge_siblings.
  assert (Dkb : diverge K B = true) by now apply diverge_siblings.
  assert (Dbc : diverge B C = true) by now apply diverge_siblings.
  assert (Dbk : diverge B K = true) by now apply diverge_siblings.
  assert (Qw : forall p s, quiet (open_w E p ;; f_write E p s)).
  { intros. apply quiet_bind; [apply quiet_syscall|]. intros. apply quiet_syscall. }
  assert (Rw : forall p s, raises_ioerror_only (open_w E p ;; f_write E p s)).
  { intros. apply rio_bind; [apply rio_open_w|]. intros. apply rio_f_write. }
  intros H. unfold save_files in H.
  (* certificate.pem *)
  destruct (bind_inv _ _ _ _ _ H) as [(saved & w1 & H1 & H2)|(e & H1 & _)];
    destruct (guarded_block _ _ _ _ _ _ (Rw C certificate) (Qw C certificate) H1)
      as [(Hs & Hm1 & O1)|(e1 & w0 & Hs & Hm1 & F1 & O1)];
    try discriminate; clear H; rename H2 into H;
    injection Hs as ->; cbn [negb] in H.
  2:{ injection H as <- <-. right. split; [reflexivity|]. exists e1. left.
      split; [exact O1|]. rewrite F1. split.
      - exact (write_file_frame E C certificate K _ Dck _ _ _ Hm1 eq_refl).
      - exact (write_file_frame E C certificate B _ Dcb _ _ _ Hm1 eq_refl). }
  destruct (write_file_ok _ _ _ _ _ Hm1) as ((mc & Lc1 & _) & Fr1).
  (* private_key.pem *)
  destruct (bind_inv _ _ _ _ _ H) as [(saved & w2 & H2 & H3)|(e & H2 & _)];
    destruct (guarded_block _ _ _ _ _ _ (Rw K key) (Qw K key) H2)
      as [(Hs & Hm2 & O2)|(e2 & w0 & Hs & Hm2 & F2 & O2)];
    try discriminate; clear H; rename H3 into H;
    injection Hs as ->; cbn [negb] in H.
  2:{ injection H as <- <-. right. split; [reflexivity|]. exists e2. right. left.
      split; [now rewrite O2, O1|]. rewrite F2. split.
      - apply (content_of_file _ _ _ mc).
        exact (write_file_frame E K key C _ Dkc _ _ _ Hm2 Lc1).
      - rewrite <- (Fr1 _ Dcb).
        exact (write_file_frame E K key B _ Dkb _ _ _ Hm2 eq_refl). }
  destruct (write_file_ok _ _ _ _ _ Hm2) as ((mk & Lk2 & _) & Fr2).
  assert (Lc2 : lookup (fs w2) C = Some (File certificate mc))
    by now rewrite (Fr2 _ Dkc).
  (* combined.pem *)
  assert (Qb : quiet (open_w E B ;; f_write E B certificate ;; f_write E B key)).
  { repeat (apply quiet_bind; [apply quiet_syscall|intros]). apply quiet_syscall. }
  assert (Rb : raises_ioerror_only
                 (open_w E B ;; f_write E B certificate ;; f_write E B key)).
  { apply rio_bind; [apply rio_open_w|]. intros.
    apply rio_bind; [apply rio_f_write|]. intros. apply rio_f_write. }
  destruct (bind_inv _ _ _ _ _ H) as [(saved & w3 & H3 & H4)|(e & H3 & _)];
    destruct (guarded_block _ _ _ _ _ _ Rb Qb H3)
      as [(Hs & Hm3 & O3)|(e3 & w0 & Hs & Hm3 & F3 & O3)];
    try discriminate; clear H; rename H4 into H;
    injection Hs as ->; cbn [negb] in H.
  2:{ injection H as <- <-. right. split; [reflexivity|]. exists e3.
      right. right. left.
      split; [now rewrite O3, O2, O1|]. rewrite F3. split.
      - apply (content_of_file _ _ _ mc).
        exact (write_both_frame E B certificate key C _ Dbc _ _ _ Hm3 Lc2).
      - apply (content_of_file _ _ _ mk).
        exact (write_both_frame E B certificate key K _ Dbk _ _ _ Hm3 Lk2). }
  destruct (write_both_ok _ _ _ _ _ _ Hm3) as ((mb & Lb3) & Fr3).
  assert (Cc3 : content_of (fs w3) C = Some certificate).
  { apply (content_of_file _ _ _ mc). now rewrite (Fr3 _ Dbc). }
  assert (Ck3 : content_of (fs w3) K = Some key).
  { apply (content_of_file _ _ _ mk). now rewrite (Fr3 _ Dbk). }
  assert (Cb3 : content_of (fs w3) B = Some (certificate ++ key)%string)
    by exact (content_of_file _ _ _ _ Lb3).
  (* permissions *)
  assert (Qm : quiet (chmod E K 384 ;; chmod E B 384)).
  { apply quiet_bind; [apply quiet_syscall|]. intros. apply quiet_syscall. }
  assert (Rm : forall w0 e w1,
             (chmod E K 384 ;; chmod E B 384) w0 = (Raise e, w1) ->
             is_Exception e = true).
  { apply reo_bind; [apply reo_chmod|]. intros. apply reo_chmod. }
  assert (Km : forall q text,
             preserves (fun n => content_of n q = Some text)
               (chmod E K 384 ;; chmod E B 384)).
  { intros. apply preserves_bind; [apply chmod_keeps_content|].
    intros. apply chmod_keeps_content. }
  destruct (bind_inv _ _ _ _ _ H) as [(secured & w4 & H4 & H5)|(e & H4 & _)];
    destruct (guarded_block _ _ _ _ _ _ Rm Qm H4)
      as [(Hs & Hm4 & O4)|(e4 & w0 & Hs & Hm4 & F4 & O4)];
    try discriminate; clear H; rename H5 into H;
    injection Hs as ->; cbn [negb] in H; injection H as <- <-.
  - left. split; [reflexivity|]. now rewrite O4, O3, O2, O1.
  - right. split; [reflexivity|]. exists e4. right. right. right.
    split; [now rewrite O4, O3, O2, O1|]. unfold content_of in *. rewrite F4.
    repeat split.
    + exact (Km C _ _ _ _ Hm4 Cc3).
    + exact (Km K _ _ _ _ Hm4 Ck3).
    + exact (Km B _ _ _ _ Hm4 Cb3).
Qed.

(** [save_files] (lines 110 to 143) never raises; when it counts the record
    it has printed nothing, and when it does not, it has printed exactly
    one line, which names the domain. *)
Theorem failed_save_is_reported E domain folder certificate key n w r w' :
  save_files E domain (path_join folder "certificate.pem")
    (path_join folder "private_key.pem") (path_join folder "combined.pem")
    certificate key n w = (r, w') ->
  (r = Ok (S n) /\ stdout w' = stdout w) \/
  (r = Ok n /\
   exists msg, stdout w' = stdout w ++ [msg] /\ names_domain domain msg).
Proof.
  intros H.
  destruct (save_files_outcome _ _ _ _ _ _ _ _ _ H)
    as [Hok|(Hr & e & [(O & _)|[(O & _)|[(O & _)|(O & _)]]])];
    [now left|right..]; (split; [exact Hr|]);
    eexists; (split; [exact O|reflexivity]).
Qed.

Lemma failed_save_is_reported_witness :
  let run := save_files (failing_env 0 EACCES) (VStr "a.example") ["d"; "certificate.pem"]
               ["d"; "private_key.pem"] ["d"; "combined.pem"] "CERT" "KEY" 0
               (world_of (Dir [("d", Dir [])])) in
  (fst run = Ok 1%nat /\ stdout (snd run) = []) \/
  (fst run = Ok 0%nat /\
   exists msg, stdout (snd run) = [] ++ [msg] /\
               names_domain (VStr "a.example") msg).
Proof.
  cbv zeta.
  refine (failed_save_is_reported (failing_env 0 EACCES) (VStr "a.example") ["d"] "CERT" "KEY" 0
            (world_of (Dir [("d", Dir [])])) _ _ _).
  reflexivity.
Defined.

(** No rollback (lines 110 to 141): the line a failed save has printed
    tells what is on disk.  After the private-key line, [certificate.pem]
    already holds the new certificate and [combined.pem] is as it was;
    after the combined-file line, the certificate and the key are both
    written; after the permission line, all three files hold their new
    texts; after the certificate line, the other two files are as they
    were. *)
Theorem failed_save_keeps_what_was_written
  E domain folder certificate key n w r w' :
  save_files E domain (path_join folder "certificate.pem")
    (path_join folder "private_key.pem") (path_join folder "combined.pem")
    certificate key n w = (r, w') ->
  forall e,
    (stdout w' = stdout w ++ [MsgErrorWritingCertificate domain e] ->
     lookup (fs w') (path_join folder "private_key.pem")
     = lookup (fs w) (path_join folder "private_key.pem") /\
     lookup (fs w') (path_join folder "combined.pem")
     = lookup (fs w) (path_join folder "combined.pem")) /\
    (stdout w' = stdout w ++ [MsgErrorWritingPrivateKey domain e] ->
     content_of (fs w') (path_join folder "certificate.pem") = Some certificate /\
     lookup (fs w') (path_join folder "combined.pem")
     = lookup (fs w) (path_join folder "combined.pem")) /\
    (stdout w' = stdout w ++ [MsgErrorWritingCombined domain e] ->
     content_of (fs w') (path_join folder "certificate.pem") = Some certificate /\
     content_of (fs w') (path_join folder "private_key.pem") = Some key) /\
    (stdout w' = stdout w ++ [MsgErrorSettingPermissions domain e] ->
     content_of (fs w') (path_join folder "certificate.pem") = Some certificate /\
     content_of (fs w') (path_join folder "private_key.pem") = Some key /\
     content_of (fs w') (path_join folder "combined.pem")
     = Some (certificate ++ key)%string).
Proof.
  intros H e.
  destruct (save_files_outcome _ _ _ _ _ _ _ _ _ H)
    as [(_ & O)|(_ & e' & [(O & F)|[(O & F)|[(O & F)|(O & F)]]])];
    (split; [|split; [|split]]); intros O'; rewrite O in O';
    try (apply app_inv_head in O'; discriminate);
    try (symmetry in O'; rewrite <- (app_nil_r (stdout w)) in O' at 2;
         apply app_inv_head in O'; discriminate);
    tauto.
Qed.

Lemma failed_save_keeps_what_was_written_witness :
  let run := save_files (failing_env 3 ENOSPC) (VStr "a.example") ["d"; "certificate.pem"]
               ["d"; "private_key.pem"] ["d"; "combined.pem"] "CERT" "KEY" 0
               (world_of (Dir [("d", Dir [])])) in
  content_of (fs (snd run)) ["d"; "certificate.pem"] = Some "CERT" /\
  lookup (fs (snd run)) ["d"; "combined.pem"] = None.
Proof.
  cbv zeta.
  refine (proj1 (proj2 (failed_save_keeps_what_was_written
                          (failing_env 3 ENOSPC) (VStr "a.example")
                          ["d"] "CERT" "KEY" 0 (world_of (Dir [("d", Dir [])]))
                          _ _ _ (OSError ENOSPC))) _); reflexivity.
Defined.

(** No record with both payloads fails in silence: when its domain
    resolved, and the record is not counted, the last line printed for it
    names the domain, be it the skip notice, a write or permission error,
    or the report of the handler of line 144. *)
Theorem uncounted_record_is_reported
  E out archive_old skip_existing cert_data n w w'
  domain certificate_b64 key_b64 :
  resolve_domain cert_data = Ok domain ->
  py_get cert_data "certificate" (VStr "") = Ok certificate_b64 ->
  py_get cert_data "key" (VStr "") = Ok key_b64 ->
  py_truthy certificate_b64 && py_truthy key_b64 = true ->
  loop_body E out archive_old skip_existing cert_data n w = (Ok n, w') ->
  exists before msg,
    stdout w' = before ++ [msg] /\ names_domain domain msg.
Proof.
  intros Hd Hcb Hkb Ht H.
  rewrite (loop_body_tries _ _ _ _ _ _ _ _ _ _ Hd Hcb Hkb Ht) in H.
  destruct (try_except_inv _ _ _ _ _ _ H)
    as [(a & H1 & [= <-])|[(e & w1 & _ & _ & H2)|(e & _ & _ & ?)]];
    [| |discriminate].
  - unfold extract_record in H1.
    apply bind_ok_inv in H1 as (certificate & w1 & _ & H1).
    apply bind_ok_inv in H1 as (key & w2 & _ & H1).
    apply bind_ok_inv in H1 as (sanitized & w3 & _ & H1).
    apply bind_ok_inv in H1 as ([] & w4 & _ & H1).
    unfold fill_folder in H1.
    apply bind_ok_inv in H1 as ([|] & w5 & _ & H1).
    + cbv [bind print ret] in H1. injection H1 as <-. cbn.
      eexists _, _. split; reflexivity.
    + apply bind_ok_inv in H1 as ([] & w6 & _ & H1).
      destruct (save_files_outcome _ _ _ _ _ _ _ _ _ H1)
        as [([= Hn] & _)|(_ & e & [(O & _)|[(O & _)|[(O & _)|(O & _)]]])];
        [lia|..]; eexists _, _; (split; [exact O|reflexivity]).
  - cbv [bind print ret] in H2. injection H2 as <-. cbn.
    eexists _, _. split; reflexivity.
Qed.

Lemma uncounted_record_is_reported_witness :
  exists before msg,
    stdout (snd (loop_body (failing_env 1 EACCES) ["out"] false false
                   record_b 0 (world_of (Dir []))))
    = before ++ [msg] /\
    names_domain (VStr "b.example") msg.
Proof.
  apply (uncounted_record_is_reported (failing_env 1 EACCES) ["out"] false
           false record_b 0 (world_of (Dir [])) _ (VStr "b.example")
           (VStr "Q0VSVA==") (VStr "S0VZ")); reflexivity.
Defined.

(** ** Archiving (lines 96 to 108) *)

Lemma alter_succeeds f p : forall o c r,
  olookup o p = Some c -> f (Some c) = Ok r ->
  exists o', alter f p o = Ok o'.
Proof.
  induction p as [|x p IH]; intros o c r Hc Hf.
  - rewrite olookup_nil in Hc. subst o. cbn. eauto.
  - destruct o as [[d m|es]|]; try discriminate.
    rewrite olookup_cons_dir in Hc. cbn [alter].
    destruct (IH _ _ _ Hc Hf) as [o' ->]. cbn. eauto.
Qed.

Lemma alter_creates n parent x : forall o es,
  olookup o parent = Some (Dir es) ->
  exists o', alter (fun _ => Ok (Some n)) (parent ++ [x]) o = Ok o'.
Proof.
  induction parent as [|y parent IH]; intros o es Hdir.
  - rewrite olookup_nil in Hdir. subst o. cbn. eauto.
  - destruct o as [[d m|es0]|]; try discriminate.
    rewrite olookup_cons_dir in Hdir. cbn [app alter].
    destruct (IH _ _ Hdir) as [o' ->]. cbn. eauto.
Qed.

Lemma alter_nonempty_some f x p o o' :
  alter f (x :: p) o = Ok o' -> exists root', o' = Some root'.
Proof.
  cbn. destruct o as [[d m|es]|]; try discriminate.
  destruct (alter f p (assoc x es)); cbn; [|discriminate].
  intros [= <-]. eauto.
Qed.

Lemma path_join_cons p name : exists x rest, path_join p name = x :: rest.
Proof. destruct p; cbn; eauto. Qed.

(** Moving a node to a free name in an existing directory that lies apart
    from the source. *)
Lemma fs_move_to_free_name folder name x root node es :
  String.eqb name "archive" = false ->
  lookup root (path_join folder name) = Some node ->
  lookup root (path_join folder "archive") = Some (Dir es) ->
  lookup root (path_join (path_join folder "archive") x) = None ->
  exists root',
    fs_move (path_join folder name) (path_join (path_join folder "archive") x)
      root = Ok root' /\
    lookup root' (path_join folder name) = None /\
    lookup root' (path_join (path_join folder "archive") x) = Some node /\
    (forall q,
        diverge (path_join folder name) q = true ->
        diverge (path_join (path_join folder "archive") x) q = true ->
        lookup root' q = lookup root q).
Proof.
  intros Hname Hsrc Harch Hfree.
  set (src := path_join folder name) in *.
  set (archive_folder := path_join folder "archive") in *.
  set (dst := path_join archive_folder x) in *.
  assert (Dsa : diverge src archive_folder = true) by now apply diverge_siblings.
  assert (Dds : diverge dst src = true).
  { unfold dst, archive_folder, src, path_join. rewrite <- app_assoc.
    apply diverge_after_prefix. now rewrite String.eqb_sym. }
  unfold fs_move. rewrite (proj1 (lookup_resolve _ _ _) Hsrc), Hfree.
  cbn [rbind].
  (* the removal *)
  destruct (alter_succeeds (fun o => match o with
                                     | Some _ => Ok None
                                     | None => Raise (OSError ENOENT)
                                     end) src (Some root) node None Hsrc eq_refl)
    as [o1 Hrm].
  destruct (path_join_cons folder name) as (s0 & srest & Hs). fold src in Hs.
  pose proof Hrm as Hrm'. rewrite Hs in Hrm'.
  destruct (alter_nonempty_some _ _ _ _ _ Hrm') as [r ->]. clear Hrm'.
  assert (Hremove : fs_remove src root = Ok r).
  { unfold fs_remove, alter_root. now rewrite Hrm. }
  rewrite Hremove. cbn [rbind].
  assert (Hgone : lookup r src = None).
  { pose proof (alter_root_at _ _ _ _ Hremove) as Hat. rewrite Hsrc in Hat.
    now injection Hat. }
  assert (Harch' : lookup r archive_folder = Some (Dir es)).
  { now rewrite (alter_root_diverge _ _ _ _ _ Hremove Dsa). }
  (* the insertion *)
  destruct (alter_creates node archive_folder x (Some r) es Harch') as [o2 Hput].
  destruct (path_join_cons archive_folder x) as (d0 & drest & Hd).
  fold dst in Hd, Hput. unfold path_join in Hput. fold (path_join archive_folder x) in Hput.
  fold dst in Hput.
  pose proof Hput as Hput'. rewrite Hd in Hput'.
  destruct (alter_nonempty_some _ _ _ _ _ Hput') as [root' ->]. clear Hput'.
  assert (Hinsert : fs_put dst node r = Ok root').
  { unfold fs_put, alter_root. now rewrite Hput. }
  exists root'. split; [exact Hinsert|]. split; [|split].
  - now rewrite (alter_root_diverge _ _ _ _ _ Hinsert Dds).
  - pose proof (alter_root_at _ _ _ _ Hinsert) as Hat. now injection Hat.
  - intros q Hq1 Hq2.
    rewrite (alter_root_diverge _ _ _ _ _ Hinsert Hq2).
    exact (alter_root_diverge _ _ _ _ _ Hremove Hq1).
Qed.

(** One turn of lines 99 to 108 on a file that is there: the clock is read
    once, and when the archive directory exists, the stamped name is free
    and the operating system does not fail the move, the old node, with
    its text and its mode, is under [archive] by the name
    [<file_name>_<timestamp>], the old name is free, and one line tells
    so. *)
Theorem archive_file_moves_old_file E folder file_name w node :
  fault E (steps w) = None ->
  String.eqb file_name "archive" = false ->
  lookup (fs w) (path_join folder file_name) = Some node ->
  is_dir (fs w) (path_join folder "archive") ->
  let archived_file :=
    path_join (path_join folder "archive")
      (file_name ++ "_" ++ clock E (ticks w))%string in
  lookup (fs w) archived_file = None ->
  exists w',
    archive_file E folder (path_join folder "archive") file_name w = (Ok tt, w') /\
    lookup (fs w') (path_join folder file_name) = None /\
    lookup (fs w') archived_file = Some node /\
    ticks w' = S (ticks w) /\
    stdout w' = stdout w ++ [MsgArchived file_name archived_file].
Proof.
  intros Hfault Hname Hold [es Harch] archived_file Hfree.
  destruct (fs_move_to_free_name folder file_name
              (file_name ++ "_" ++ clock E (ticks w))%string (fs w) node es
              Hname Hold Harch Hfree)
    as (root' & Hmove & Hgone & Hthere & _).
  fold archived_file in Hmove, Hthere.
  unfold archive_file, bind at 1, path_exists. rewrite Hold. cbn [is_some].
  unfold bind at 1, now. fold archived_file.
  unfold try_except, bind, move, syscall, effect. cbn [steps fs].
  rewrite Hfault, Hmove. cbn.
  eexists. split; [reflexivity|]. cbn. repeat split; assumption.
Qed.

Lemma archive_file_moves_old_file_witness :
  let w := world_of (Dir [("d", Dir [("certificate.pem", File "OLD" 420);
                                     ("archive", Dir [])])]) in
  exists w',
    archive_file sample_env ["d"] ["d"; "archive"] "certificate.pem" w
    = (Ok tt, w') /\
    lookup (fs w') ["d"; "certificate.pem"] = None /\
    lookup (fs w') ["d"; "archive"; "certificate.pem_20240101_000000"]
    = Some (File "OLD" 420) /\
    ticks w' = 1%nat /\
    stdout w'
    = [] ++ [MsgArchived "certificate.pem"
               ["d"; "archive"; "certificate.pem_20240101_000000"]].
Proof.
  cbv zeta.
  refine (archive_file_moves_old_file sample_env ["d"] "certificate.pem"
            (world_of (Dir [("d", Dir [("certificate.pem", File "OLD" 420);
                                       ("archive", Dir [])])]))
            (File "OLD" 420) _ _ _ _ _); try reflexivity.
  exists []. reflexivity.
Defined.

Lemma archive_file_returns E folder archive_folder file_name w r w' :
  archive_file E folder archive_folder file_name w = (r, w') -> r = Ok tt.
Proof.
  unfold archive_file. intros H.
  destruct (bind_inv _ _ _ _ _ H) as [([|] & w1 & _ & H1)|(e & H1 & _)];
    [| |discriminate].
  - destruct (bind_inv _ _ _ _ _ H1) as [(ts & w2 & _ & H2)|(e & H2 & _)];
      [|discriminate].
    destruct (try_except_inv _ _ _ _ _ _ H2)
      as [([] & _ & ->)|[(e & w3 & _ & _ & H3)|(e & H3 & Hc & _)]].
    + reflexivity.
    + now injection H3 as <- _.
    + assert (is_Exception e = true); [|congruence].
      revert H3. apply reo_bind; [|intros; apply reo_print].
      apply reo_effect. intros n e0. apply fs_move_raises.
  - now injection H1 as <- _.
Qed.

(** Lines 96 to 108 as a whole: the only failure that leaves them is that
    of [os.makedirs] on the archive folder (which the handler of line 144
    then reports); once the folder is there, the three turns run to the
    end, whatever happens to each move. *)
Theorem archive_failures_do_not_abort E folder w :
  (forall e w1,
      makedirs E (path_join folder "archive") w = (Raise e, w1) ->
      archive_old_files E folder w = (Raise e, w1)) /\
  (forall w1,
      makedirs E (path_join folder "archive") w = (Ok tt, w1) ->
      exists w', archive_old_files E folder w = (Ok tt, w')).
Proof.
  split.
  - intros e w1 Hmk. unfold archive_old_files. now rewrite (bind_raise _ _ _ _ _ Hmk).
  - intros w1 Hmk. unfold archive_old_files. rewrite (bind_ok _ _ _ _ _ Hmk).
    destruct (archive_file E folder (path_join folder "archive")
                "certificate.pem" w1) as [r1 w2] eqn:H1.
    rewrite (archive_file_returns _ _ _ _ _ _ _ H1) in H1.
    rewrite (bind_ok _ _ _ _ _ H1).
    destruct (archive_file E folder (path_join folder "archive")
                "private_key.pem" w2) as [r2 w3] eqn:H2.
    rewrite (archive_file_returns _ _ _ _ _ _ _ H2) in H2.
    rewrite (bind_ok _ _ _ _ _ H2).
    destruct (archive_file E folder (path_join folder "archive")
                "combined.pem" w3) as [r3 w4] eqn:H3.
    rewrite (archive_file_returns _ _ _ _ _ _ _ H3). eauto.
Qed.

Lemma archive_failures_do_not_abort_witness :
  exists w',
    archive_old_files (failing_env 1 EACCES) ["d"]
      (world_of (Dir [("d", Dir [("certificate.pem", File "OLD" 420)])]))
    = (Ok tt, w').
Proof.
  refine (proj2 (archive_failures_do_not_abort (failing_env 1 EACCES) ["d"]
                   (world_of (Dir [("d", Dir [("certificate.pem",
                                               File "OLD" 420)])])))
            _ _).
  reflexivity.
Defined.

(** ** [main] *)

(** The paths [main] works with (lines 196 and 197): the option when it was
    given and is not empty, the positional otherwise.  So two command lines
    whose options and positionals resolve to the same two strings, with the
    same switches, run alike; in particular positionals are ignored beside
    non-empty options, and an empty option is as good as none. *)
Theorem main_prefers_options E expanduser a b w :
  py_or (input_file_alt a) (input_file a)
  = py_or (input_file_alt b) (input_file b) ->
  py_or (output_dir_alt a) (output_dir a)
  = py_or (output_dir_alt b) (output_dir b) ->
  archive a = archive b -> skip_existing a = skip_existing b ->
  main E expanduser a w = main E expanduser b w /\
  (given (input_file_alt a) = true ->
   py_or (input_file_alt a) (input_file a) = input_file_alt a) /\
  (input_file_alt a = Some ""%string ->
   py_or (input_file_alt a) (input_file a) = input_file a).
Proof.
  intros Hin Hout Harchive Hskip. split; [|split].
  - unfold main. now rewrite Hin, Hout, Harchive, Hskip.
  - intros Hg. unfold py_or. now rewrite Hg.
  - intros ->. reflexivity.
Qed.

Lemma main_prefers_options_witness :
  main sample_env (fun s => [s])
    {| input_file := Some "ignored.json"; output_dir := Some "ignored";
       input_file_alt := Some "acme.json"; output_dir_alt := Some "out";
       archive := false; skip_existing := true |} sample_world
  = main sample_env (fun s => [s])
      {| input_file := Some "acme.json"; output_dir := None;
         input_file_alt := Some ""; output_dir_alt := Some "out";
         archive := false; skip_existing := true |} sample_world.
Proof.
  refine (proj1 (main_prefers_options sample_env (fun s => [s]) _ _
                   sample_world _ _ _ _)); reflexivity.
Defined.



(** ** A record that goes through *)
















(** ** Renewal under the skip option *)



(** ** What loading says *)

(** Lines 36 to 44, the operating system failing neither the opening nor
    the reading.  A path whose last step is missing gives the not-found
    line and [sys.exit(1)]; a readable text that is not JSON gives the
    invalid-JSON line and [sys.exit(1)]; bytes that are not UTF-8 raise
    [UnicodeDecodeError], and a directory at the path raises
    [IsADirectoryError], neither of which is caught: nothing is printed. *)
Theorem load_store_diagnostics E acme_file w :
  fault E (steps w) = None -> fault E (S (steps w)) = None ->
  (resolve (fs w) acme_file = Raise (OSError ENOENT) ->
   fst (load_store E acme_file w) = Raise (SystemExit 1) /\
   stdout (snd (load_store E acme_file w))
   = stdout w ++ [MsgFileNotFound acme_file]) /\
  (forall text m,
      lookup (fs w) acme_file = Some (File text m) ->
      (utf8_valid text = true -> json_loads E text = None ->
       fst (load_store E acme_file w) = Raise (SystemExit 1) /\
       stdout (snd (load_store E acme_file w))
       = stdout w ++ [MsgInvalidJSON acme_file]) /\
      (utf8_valid text = false ->
       fst (load_store E acme_file w) = Raise UnicodeDecodeError /\
       stdout (snd (load_store E acme_file w)) = stdout w)) /\
  (forall es,
      lookup (fs w) acme_file = Some (Dir es) ->
      fst (load_store E acme_file w) = Raise (OSError EISDIR) /\
      stdout (snd (load_store E acme_file w)) = stdout w).
Proof.
  intros F0 F1.
  split; [|split].
  - intros Hmissing.
    unfold load_store, try_except, read_text, bind, syscall, query, fs_open_r.
    rewrite F0, Hmissing. cbn. split; reflexivity.
  - intros text m Hfile. apply lookup_resolve in Hfile.
    unfold load_store, try_except, read_text, bind, syscall, query, fs_open_r.
    rewrite F0, Hfile. cbn [rbind steps stepped fs]. rewrite F1.
    unfold utf8_decode. split.
    + intros Hv Hj. rewrite Hv. cbn. rewrite Hj. cbn. split; reflexivity.
    + intros ->. cbn. split; reflexivity.
  - intros es Hdir. apply lookup_resolve in Hdir.
    unfold load_store, try_except, read_text, bind, syscall, query, fs_open_r.
    rewrite F0, Hdir. cbn. split; reflexivity.
Qed.

Lemma load_store_diagnostics_witness :
  fst (load_store sample_env ["etc"; "acme.json"] (world_of (Dir [("etc", Dir [])])))
  = Raise (SystemExit 1) /\
  stdout (snd (load_store sample_env ["etc"; "acme.json"]
                 (world_of (Dir [("etc", Dir [])]))))
  = [] ++ [MsgFileNotFound ["etc"; "acme.json"]].
Proof.
  refine (proj1 (load_store_diagnostics sample_env ["etc"; "acme.json"]
                   (world_of (Dir [("etc", Dir [])])) _ _) _); reflexivity.
Defined.
